(** * gpytorch/utils/nearest_neighbors.py : the [NNUtil] nearest-neighbour utility

    A shallow embedding of the class [NNUtil] and its methods, followed by the
    properties of the specification that are settled against it.

    The Python object lives in a small world made of the instance attributes
    ([self]) and a heap of faiss index objects, which are mutable and are
    referred to by address.  Methods are computations in a state-and-exception
    monad over that world: an exception leaves the mutations done so far in
    place, as in Python. *)

From Stdlib Require Import ZArith Lia.
From stdpp Require Import base list numbers strings sorting.

Local Open Scope Z_scope.
Local Open Scope nat_scope.

(** ** Exceptions *)

(** The [assert] statements of the file, one constructor per site. *)
Inductive assertion : Type :=
| init_k_positive        (* l.33  "k must be greater than 0" *)
| initialized            (* l.86  "Please initialize with training data first." *)
| query_k_positive       (* l.90  "k must be greater than 0" *)
| k_le_train_n           (* l.91  "k should be smaller than number of train data" *)
| k_lt_N                 (* l.146 "k should be smaller than number of data" *)
| batch_shape_equal      (* l.192 "x's batch shape must be equal to self.batch_shape" *)
| dim_equal.             (* l.194 "x's dim must be equal to self.dim" *)

Inductive exn : Type :=
| AssertionError (a : assertion)
| TypeError              (* calling a module object, l.129 *)
| AttributeError         (* reading an attribute that was never assigned, l.99 *)
| UnboundLocalError      (* reading a local that was never assigned, l.176 *)
| IndexError             (* tuple or sequence index out of range *)
| RuntimeError           (* raised by torch's [view] *)
| ValueError             (* l.187 "Unknown device" *)
| InvalidReference.      (* reading an index object that was never created:
                            does not arise in Python, see [wf_world] *)

(** Modelled from the spec: the error taxonomy of section 7, which the code
    does not have (it raises [AssertionError] and [ValueError] only).  An
    assertion is classified by what it checks. *)
Inductive spec_error : Type :=
| ConfigurationError | ShapeError | StateError | RangeError
| UnsupportedOperationError.

Definition classify (e : exn) : option spec_error :=
  match e with
  | AssertionError init_k_positive => Some ConfigurationError
  | AssertionError initialized => Some StateError
  | AssertionError query_k_positive => Some RangeError
  | AssertionError k_le_train_n => Some RangeError
  | AssertionError k_lt_N => Some RangeError
  | AssertionError batch_shape_equal => Some ShapeError
  | AssertionError dim_equal => Some ShapeError
  | ValueError => Some ConfigurationError
  | _ => None
  end.

(** ** Tensors *)

(** A dense (contiguous) tensor: its shape and its elements in row-major
    order. *)
Record tensor (A : Type) : Type := Tensor { shape : list nat; data : list A }.
Arguments Tensor {A} _ _.
Arguments shape {A} _.
Arguments data {A} _.

(** [torch.Size.numel()] *)
Definition numel (sh : list nat) : nat := foldr Nat.mul 1 sh.

(** [x.unsqueeze(-1)] *)
Definition unsqueeze_last {A} (x : tensor A) : tensor A :=
  Tensor (shape x ++ [1]) (data x).

(** The Python slice [sh[:-2]]. *)
Definition all_but_last2 (sh : list nat) : list nat := take (length sh - 2) sh.

(** [sh[-1]] and [sh[-2]]; [None] stands for [IndexError]. *)
Definition neg1 (sh : list nat) : option nat := last sh.
Definition neg2 (sh : list nat) : option nat :=
  match length sh with
  | S (S n) => sh !! n
  | _ => None
  end.

(** [cnt] consecutive blocks of [n] elements. *)
Fixpoint chunks {A} (n cnt : nat) (l : list A) : list (list A) :=
  match cnt with
  | O => []
  | S c => take n l :: chunks n c (drop n l)
  end.

(** [x.view(-1, n, d)] read as slots of [n] points of [d] coordinates.
    torch infers the first size as [numel / (n * d)]; it refuses the view when
    [n * d = 0] (the inferred size is ambiguous) and when [n * d] does not
    divide the number of elements. *)
Definition view3 {A} (x : tensor A) (n d : nat) : exn + list (list (list A)) :=
  let total := numel (shape x) in
  if (n * d =? 0) then inl RuntimeError
  else if (total mod (n * d) =? 0)
       then inr (map (chunks d n) (chunks (n * d) (total / (n * d)) (data x)))
       else inl RuntimeError.

(** The int64 result [nn_idx]: the buffer of [torch.empty(M, rows, k)] once
    every slot is written, with the shape given by the final [view]. *)
Record idx_tensor : Type :=
  IdxTensor { ishape : list nat; islots : list (list (list Z)) }.

(** ** The search backend *)

(** Coordinates and the comparison of L2 distances are those of the backend
    (float32 in faiss).  [closer q a b] says that [a] is at most as far from
    the query [q] as [b]; distances are totally preordered (no NaN). *)
Class FlatL2 (coord : Type) : Type := {
  to_float32 : coord -> coord;
  closer : list coord -> list coord -> list coord -> bool;
  closer_total : forall q a b, closer q a b = true \/ closer q b a = true;
  closer_trans : forall q a b c,
      closer q a b = true -> closer q b c = true -> closer q a c = true
}.

(** Insertion of [i] before the first element that is strictly farther. *)
Fixpoint insert_by (le : nat -> nat -> bool) (i : nat) (l : list nat) : list nat :=
  match l with
  | [] => [i]
  | j :: l' => if le i j then i :: l else j :: insert_by le i l'
  end.

Definition sort_by (le : nat -> nat -> bool) (l : list nat) : list nat :=
  foldr (insert_by le) [] l.

(** Exact arithmetic on integer coordinates: squared Euclidean distance.
    Small integers are float32 values and their distances are computed
    without rounding, so this is the backend's comparison on such inputs. *)
Fixpoint sqdist (a b : list Z) : Z :=
  match a, b with
  | x :: a', y :: b' => ((x - y) * (x - y) + sqdist a' b')%Z
  | _, _ => 0%Z
  end.

#[export] Instance exact_Z : FlatL2 Z := {|
  to_float32 := fun x => x;
  closer := fun q a b => (sqdist q a <=? sqdist q b)%Z;
  closer_total := ltac:(intros q a b; cbv beta;
    destruct (Z.leb_spec (sqdist q a) (sqdist q b)); [now left | right];
    apply Z.leb_le; lia);
  closer_trans := ltac:(intros q a b c Hab Hbc; cbv beta in *;
    apply Z.leb_le in Hab; apply Z.leb_le in Hbc; apply Z.leb_le; lia)
|}.

(** Inputs used in the examples: the two training points and the query of
    the specification's first scenario, five points on a line, an empty set
    of test points, a rank-1 array and an array of the wrong shape. *)
Definition pts_train : tensor Z := Tensor [2; 2] [0; 0; 10; 10]%Z.
Definition pts_query : tensor Z := Tensor [1; 2] [1; 1]%Z.
Definition pts_line : tensor Z := Tensor [5; 1] [0; 1; 2; 3; 4]%Z.
Definition pts_none : tensor Z := Tensor [0; 2] [].
Definition pts_rank1 : tensor Z := Tensor [3] [0; 1; 2]%Z.
Definition pts_wrong : tensor Z := Tensor [3; 5] (replicate 15 0%Z).

Inductive backend : Type := faiss | sklearn.

Definition addr : Type := nat.

Section NNUtil.
Context {coord : Type} `{FlatL2 coord}.

Abbreviation point := (list coord).

(** Modelled from the spec: the search-structure capability [reset],
    [add], [search] of faiss' [IndexFlatL2] and [GpuIndexFlatL2], which is
    outside this repository.  The structure stores the added points in
    order; [search] is exact brute force by L2 distance, ties by insertion
    order, and a label is [-1] where fewer than [k] points are stored. *)
Record IndexFlatL2 : Type :=
  MkIndex { ix_d : Z; ix_gpu : bool; xb : list point }.

(** [index.ntotal] *)
Definition ntotal (ix : IndexFlatL2) : nat := length (xb ix).

(** Comparison of the stored points [i] and [j] by their distance to [q]. *)
Definition le_from (pts : list point) (q : point) (i j : nat) : bool :=
  closer q (nth i pts []) (nth j pts []).

(** The labels of all stored points, nearest to [q] first. *)
Definition knn_order (pts : list point) (q : point) : list nat :=
  sort_by (le_from pts q) (seq 0 (length pts)).

(** The [kn] labels that [search] returns for the query [q], padded with
    [-1] when fewer than [kn] points are stored. *)
Definition search1 (pts : list point) (kn : nat) (q : point) : list Z :=
  take kn (map Z.of_nat (knn_order pts q) ++ replicate kn (-1)%Z).

(** ** The world *)

Record NNUtil : Type := MkNNUtil {
  k : Z;
  dim : Z;
  batch_shape : list nat;
  train_n : option nat;
  nnlib : backend;
  res : option unit;       (* [StandardGpuResources] or [None] *)
  index : list addr        (* the list of index objects *)
}.

Record world : Type := MkWorld { heap : list IndexFlatL2; self : NNUtil }.

(** ** The monad *)

Definition M (A : Type) : Type := world -> (exn + A) * world.

Definition ret {A} (a : A) : M A := fun w => (inr a, w).
Definition raise {A} (e : exn) : M A := fun w => (inl e, w).
Definition bind {A B} (m : M A) (f : A -> M B) : M B :=
  fun w => match m w with
           | (inr a, w') => f a w'
           | (inl e, w') => (inl e, w')
           end.

Definition get_self : M NNUtil := fun w => (inr (self w), w).
Definition put_self (s : NNUtil) : M unit :=
  fun w => (inr tt, MkWorld (heap w) s).

Definition assert (b : bool) (a : assertion) : M unit :=
  if b then ret tt else raise (AssertionError a).

Definition lift {A} (r : exn + A) : M A := fun w => (r, w).

Definition item {A} (l : list A) (i : nat) : M A :=
  match l !! i with
  | Some a => ret a
  | None => raise IndexError
  end.

Definition size_at (o : option nat) : M nat :=
  match o with
  | Some n => ret n
  | None => raise IndexError
  end.

Notation "x <- m ;; f" := (bind m (fun x => f))
  (at level 100, m at next level, right associativity).
Notation "m ;;; f" := (bind m (fun _ => f))
  (at level 100, right associativity).

(** *** Index objects on the heap *)

(** [IndexFlatL2(d)], [GpuIndexFlatL2(res, d)]: a new, empty object. *)
Definition new_index (d : Z) (gpu : bool) (pts : list point) : M addr :=
  fun w => (inr (length (heap w)),
            MkWorld (heap w ++ [MkIndex d gpu pts]) (self w)).

Definition deref (a : addr) : M IndexFlatL2 :=
  fun w => match heap w !! a with
           | Some ix => (inr ix, w)
           | None => (inl InvalidReference, w)
           end.

Definition store (a : addr) (ix : IndexFlatL2) : M unit :=
  fun w => (inr tt, MkWorld (<[a := ix]> (heap w)) (self w)).

(** [index.reset()] *)
Definition index_reset (a : addr) : M unit :=
  ix <- deref a;; store a (MkIndex (ix_d ix) (ix_gpu ix) []).

(** [index.add(pts)] *)
Definition index_add (a : addr) (pts : list point) : M unit :=
  ix <- deref a;; store a (MkIndex (ix_d ix) (ix_gpu ix) (xb ix ++ pts)).

(** [index.search(qs, kn)[1]]: one row of labels per query. *)
Definition index_search (a : addr) (qs : list point) (kn : nat) : M (list (list Z)) :=
  ix <- deref a;; ret (map (search1 (xb ix) kn) qs).

(** [index_cpu_to_gpu(res, 0, index)]: a copy on the accelerator. *)
Definition index_cpu_to_gpu (a : addr) : M addr :=
  ix <- deref a;; new_index (ix_d ix) true (xb ix).

Fixpoint mapM {A B} (f : A -> M B) (l : list A) : M (list B) :=
  match l with
  | [] => ret []
  | a :: l' => b <- f a;; bs <- mapM f l';; ret (b :: bs)
  end.

(** ** The methods of [NNUtil] *)

Definition set_nnlib (b : backend) : M unit :=
  s <- get_self;;
  put_self (MkNNUtil (k s) (dim s) (batch_shape s) (train_n s) b (res s) (index s)).

Definition set_train_n (n : nat) : M unit :=
  s <- get_self;;
  put_self (MkNNUtil (k s) (dim s) (batch_shape s) (Some n) (nnlib s) (res s) (index s)).

Definition set_res_index (r : option unit) (idx : list addr) : M unit :=
  s <- get_self;;
  put_self (MkNNUtil (k s) (dim s) (batch_shape s) (train_n s) (nnlib s) r idx).

(** l.61 *)
Definition cuda : M unit :=
  s <- get_self;;
  match nnlib s with
  | faiss =>
      idx <- mapM (fun _ => new_index (dim s) true [])
                  (seq 0 (numel (batch_shape s)));;
      set_res_index (Some tt) idx
  | sklearn => ret tt
  end.

(** l.69 *)
Definition cpu : M unit :=
  s <- get_self;;
  match nnlib s with
  | faiss =>
      idx <- mapM (fun _ => new_index (dim s) false [])
                  (seq 0 (numel (batch_shape s)));;
      set_res_index None idx
  | sklearn => ret tt
  end.

(** The Python test [p in s] on strings. *)
Fixpoint contains (p s : string) : bool :=
  String.prefix p s ||
  match s with
  | EmptyString => false
  | String _ s' => contains p s'
  end.

(** l.178 *)
Definition to (device : string) : M unit :=
  if String.eqb device "cpu" then cpu
  else if contains "cuda" device then cuda
  else raise ValueError.

(** l.31.  [faiss_installed] tells whether [import faiss] succeeds.  That
    [batch_shape] is a [torch.Size] is in its type. *)
Definition __init__ (k0 dim0 : Z) (batch_shape0 : list nat)
    (preferred_nnlib : string) (faiss_installed : bool) (device : string) : M unit :=
  assert (0 <? k0)%Z init_k_positive;;;
  put_self (MkNNUtil k0 dim0 batch_shape0 None sklearn None []);;;
  (if String.eqb preferred_nnlib "faiss"
   then if faiss_installed
        then set_nnlib faiss;;; cpu
        else set_nnlib sklearn
   else set_nnlib sklearn);;;
  to device.

(** The object before [__init__] runs: no attribute is assigned. *)
Definition blank : NNUtil := MkNNUtil 0 0 [] None sklearn None [].

(** [NNUtil(k, dim, batch_shape, preferred_nnlib, device)] with the index
    objects [h] already alive. *)
Definition New (k0 dim0 : Z) (batch_shape0 : list nat)
    (preferred_nnlib : string) (faiss_installed : bool) (device : string)
    (h : list IndexFlatL2) : exn + world :=
  match __init__ k0 dim0 batch_shape0 preferred_nnlib faiss_installed device
                 (MkWorld h blank) with
  | (inr _, w) => inr w
  | (inl e, _) => inl e
  end.

(** l.189 *)
Definition _expand_and_check_shape (x : tensor coord) : M (tensor coord) :=
  let x := if length (shape x) =? 1 then unsqueeze_last x else x in
  s <- get_self;;
  assert (bool_decide (all_but_last2 (shape x) = batch_shape s)) batch_shape_equal;;;
  d <- size_at (neg1 (shape x));;
  assert (Z.of_nat d =? dim s)%Z dim_equal;;;
  ret x.

(** [assert o is not None] *)
Definition assert_some {A} (o : option A) (a : assertion) : M A :=
  match o with
  | Some v => ret v
  | None => raise (AssertionError a)
  end.

(** l.77.  An omitted [k] is [None]. *)
Definition find_nn_idx (test_x : tensor coord) (kq : option Z) : M idx_tensor :=
  s <- get_self;;
  n <- assert_some (train_n s) initialized;;
  kk <- match kq with
        | None => ret (k s)
        | Some k' => assert (0 <? k')%Z query_k_positive;;; ret k'
        end;;
  assert (kk <=? Z.of_nat n)%Z k_le_train_n;;;
  test_x <- _expand_and_check_shape test_x;;
  match nnlib s with
  | sklearn =>
      (* [self.neighbors] is assigned only at l.129, after a call that
         raises; [self.train_neighbors] is assigned nowhere *)
      raise AttributeError
  | faiss =>
      test_n <- size_at (neg2 (shape test_x));;
      tx <- lift (view3 test_x test_n (Z.to_nat (dim s)));;
      nn_idx <- mapM (fun i => a <- item (index s) i;;
                               q <- item tx i;;
                               index_search a q (Z.to_nat kk))
                     (seq 0 (numel (batch_shape s)));;
      ret (IdxTensor (batch_shape s ++ [test_n; Z.to_nat kk]) nn_idx)
  end.

(** l.114 *)
Definition set_nn_idx (train_x : tensor coord) : M unit :=
  train_x <- _expand_and_check_shape train_x;;
  n <- size_at (neg2 (shape train_x));;
  set_train_n n;;;
  s <- get_self;;
  match nnlib s with
  | sklearn =>
      (* l.126-129: [sklearn.neighbors], a module, is called *)
      raise TypeError
  | faiss =>
      tx <- lift (view3 train_x n (Z.to_nat (dim s)));;
      mapM (fun i => a <- item (index s) i;;
                     index_reset a;;;
                     pts <- item tx i;;
                     index_add a pts)
           (seq 0 (numel (batch_shape s)));;;
      ret tt
  end.

(** l.165-170: the rows of one batch slot, on the local index [ix]. *)
Definition sequential_rows (ix : addr) (kn N : nat) (xs : list point) : M (list (list Z)) :=
  mapM (fun i => row <- item xs i;;
                 found <- index_search ix [row] kn;;
                 labels <- item found 0;;
                 index_add ix [row];;;
                 ret labels)
       (seq kn (N - kn)).

(** l.152-156: the local index, copied to the accelerator when [self.res]
    is set. *)
Definition local_index (s : NNUtil) : M addr :=
  ix <- new_index (dim s) false [];;
  match res s with
  | Some _ => index_cpu_to_gpu ix
  | None => ret ix
  end.

(** l.136 *)
Definition build_sequential_nn_idx (x : tensor coord) : M idx_tensor :=
  x <- _expand_and_check_shape x;;
  N <- size_at (neg2 (shape x));;
  s <- get_self;;
  assert (k s <? Z.of_nat N)%Z k_lt_N;;;
  match nnlib s with
  | faiss =>
      let kn := Z.to_nat (k s) in
      ix <- local_index s;;
      x_v <- lift (view3 x N (Z.to_nat (dim s)));;
      let x_np := map (map (map to_float32)) x_v in
      nn_idx <- mapM (fun bi => xs <- item x_np bi;;
                                index_reset ix;;;
                                index_add ix (take kn xs);;;
                                sequential_rows ix kn N xs)
                     (seq 0 (numel (batch_shape s)));;
      ret (IdxTensor (batch_shape s ++ [N - kn; kn]) nn_idx)
  | sklearn =>
      (* l.174-176: [pass], then [return nn_idx] *)
      raise UnboundLocalError
  end.
(** ** Predicates used by the statements *)

(** The points of batch slot [bi] of an array viewed as [(-1, n, d)]. *)
Definition slot_points (x : tensor coord) (n d bi : nat) : list point :=
  match view3 x n d with
  | inr xv => default [] (xv !! bi)
  | inl _ => []
  end.

(** [row] lists, as labels, [kn] distinct points among the first [n] of
    [pts], none of them farther from [q] than a point left out. *)
Definition nearest_among (pts : list point) (q : point) (n kn : nat)
    (row : list Z) : Prop :=
  length row = kn /\ NoDup row /\
  (forall v, v ∈ row -> (0 <= v < Z.of_nat n)%Z) /\
  (forall j j', Z.of_nat j ∈ row -> j' < n -> Z.of_nat j' ∉ row ->
                closer q (nth j pts []) (nth j' pts []) = true).

(** The result has [M] slots of [rows] rows of [kn] labels. *)
Definition well_shaped (out : idx_tensor) (bs : list nat) (rows kn : nat) : Prop :=
  ishape out = bs ++ [rows; kn] /\
  length (islots out) = numel bs /\
  Forall (fun slot => length slot = rows /\
                      Forall (fun row : list Z => length row = kn) slot)
         (islots out).

Definition values (out : idx_tensor) : list Z := concat (concat (islots out)).

(** With faiss, [self.index] holds one live object per batch slot, all
    distinct.  [__init__], [cpu] and [cuda] establish it. *)
Definition wf_world (w : world) : Prop :=
  nnlib (self w) = faiss ->
  length (index (self w)) = numel (batch_shape (self w)) /\
  NoDup (index (self w)) /\
  Forall (fun a => a < length (heap w)) (index (self w)).

(** Every index object of [self] stores [n] points. *)
Definition populated (w : world) (n : nat) : Prop :=
  Forall (fun a => exists ix, heap w !! a = Some ix /\ ntotal ix = n)
         (index (self w)).

(** The shape after promotion of a rank-1 input. *)
Definition promoted (sh : list nat) : list nat :=
  if length sh =? 1 then sh ++ [1] else sh.

(** [x] does not have the shape [( *batch_shape, n, dim)]: its leading sizes
    differ from [batch_shape] or its last size differs from [dim]. *)
Definition bad_shape (s : NNUtil) (x : tensor coord) : Prop :=
  all_but_last2 (promoted (shape x)) <> batch_shape s \/
  exists d, neg1 (promoted (shape x)) = Some d /\ Z.of_nat d <> dim s.

(** A computation that leaves the world as it is, whatever it returns. *)
Definition read_only {A} (m : M A) : Prop := forall w, snd (m w) = w.

(** The world after [cpu] or [cuda] with faiss: one new, empty object per
    batch slot, appended to the heap. *)
Definition realloc (gpu : bool) (r : option unit) (w : world) : world :=
  let s := self w in
  let m := numel (batch_shape s) in
  MkWorld (heap w ++ replicate m (MkIndex (dim s) gpu []))
          (MkNNUtil (k s) (dim s) (batch_shape s) (train_n s) (nnlib s) r
                    (seq (length (heap w)) m)).

(** What the faiss branch of [find_nn_idx] writes into slot [i]. *)
Definition searched (w : world) (xv : list (list point)) (kn i : nat) : list (list Z) :=
  match index (self w) !! i, xv !! i with
  | Some a, Some qs =>
      match heap w !! a with
      | Some ix => map (search1 (xb ix) kn) qs
      | None => []
      end
  | _, _ => []
  end.

(** The row that [build_sequential_nn_idx] records for point [j] of a slot:
    a search among the [j] points before it. *)
Definition seq_row (xs : list point) (kn j : nat) : list Z :=
  search1 (take j xs) kn (nth j xs []).

(** A computation that changes at most the index object at address [a]. *)
Definition touches {A} (a : addr) (m : M A) : Prop :=
  forall w, self (snd (m w)) = self w /\
            forall b, b <> a -> heap (snd (m w)) !! b = heap w !! b.

(** The slots that [build_sequential_nn_idx] returns for the array [x] of
    [M] slots of [N] points. *)
Definition sequential_slots (x : tensor coord) (M N d kn : nat) : list (list (list Z)) :=
  map (fun bi => map (seq_row (map (map to_float32) (slot_points x N d bi)) kn)
                     (seq kn (N - kn)))
      (seq 0 M).

(** ** Predicates used by the further properties *)

(** [p] occurs in [s]: what the Python test [p in s] decides. *)
Definition substring (p s : string) : Prop :=
  exists a b, s = String.append a (String.append p b).

(** The attributes that no method assigns after construction, except for
    [res] and [index], which [cpu] and [cuda] replace. *)
Definition same_config (s s' : NNUtil) : Prop :=
  k s' = k s /\ dim s' = dim s /\ batch_shape s' = batch_shape s /\
  nnlib s' = nnlib s.

(** A computation that assigns no attribute of [self], neither creates nor
    drops an index object, and changes at most the objects at the addresses
    [L]. *)
Definition steady {A} (L : list addr) (m : M A) : Prop :=
  forall w, self (snd (m w)) = self w /\
            length (heap (snd (m w))) = length (heap w) /\
            forall b, b ∉ L -> heap (snd (m w)) !! b = heap w !! b.

(** The states that an instance goes through: any sequence of calls of the
    public methods, each of which may have returned or raised. *)
Inductive reachable_from (w0 : world) : world -> Prop :=
| reach_here : reachable_from w0 w0
| reach_cpu w : reachable_from w0 w -> reachable_from w0 (snd (cpu w))
| reach_cuda w : reachable_from w0 w -> reachable_from w0 (snd (cuda w))
| reach_to device w : reachable_from w0 w -> reachable_from w0 (snd (to device w))
| reach_set_nn_idx x w :
    reachable_from w0 w -> reachable_from w0 (snd (set_nn_idx x w))
| reach_find_nn_idx x kq w :
    reachable_from w0 w -> reachable_from w0 (snd (find_nn_idx x kq w))
| reach_build_sequential_nn_idx x w :
    reachable_from w0 w -> reachable_from w0 (snd (build_sequential_nn_idx x w)).

(** Further inputs used in the examples: two batch slots of two training
    points and of one test point each, and a 0-dimensional array. *)
Definition pts_train2 : tensor Z := Tensor [2; 2; 1] [0; 10; 20; 30]%Z.
Definition pts_query2 : tensor Z := Tensor [2; 1; 1] [1; 29]%Z.
Definition pts_scalar : tensor Z := Tensor [] [7]%Z.

(** ** Lists, shapes and views *)

Lemma all_but_last2_app (bs : list nat) (n d : nat) :
  all_but_last2 (bs ++ [n; d]) = bs.
Proof.
  unfold all_but_last2. rewrite length_app. simpl.
  replace (length bs + 2 - 2) with (length bs) by lia.
  apply take_app_length.
Qed.

Lemma neg1_app (bs : list nat) (n d : nat) : neg1 (bs ++ [n; d]) = Some d.
Proof.
  unfold neg1. replace (bs ++ [n; d]) with ((bs ++ [n]) ++ [d]).
  - apply last_snoc.
  - by rewrite <- app_assoc.
Qed.

Lemma neg2_app (bs : list nat) (n d : nat) : neg2 (bs ++ [n; d]) = Some n.
Proof.
  unfold neg2. rewrite length_app. simpl.
  replace (length bs + 2) with (S (S (length bs))) by lia.
  rewrite lookup_app_r by lia. by rewrite Nat.sub_diag.
Qed.

Lemma length_app2_not_1 (bs : list nat) (n d : nat) :
  (length (bs ++ [n; d]) =? 1) = false.
Proof. rewrite length_app. simpl. apply Nat.eqb_neq. lia. Qed.

Lemma numel_app (bs : list nat) (n d : nat) :
  numel (bs ++ [n; d]) = numel bs * (n * d).
Proof.
  unfold numel. induction bs as [|b bs IH]; simpl.
  - lia.
  - rewrite IH. lia.
Qed.

Lemma length_chunks {A} (n cnt : nat) (l : list A) : length (chunks n cnt l) = cnt.
Proof. revert l. induction cnt as [|c IH]; intros l; simpl; [done|]. by rewrite IH. Qed.

Lemma view3_ok (x : tensor coord) (bs : list nat) (n d : nat) :
  shape x = bs ++ [n; d] -> 0 < n -> 0 < d ->
  exists xv, view3 x n d = inr xv /\ length xv = numel bs /\
             Forall (fun slot : list point => length slot = n) xv.
Proof.
  intros Hsh Hn Hd. unfold view3. rewrite Hsh, numel_app.
  assert (Hnd : n * d <> 0) by lia.
  destruct (Nat.eqb_spec (n * d) 0) as [|_]; [lia|].
  rewrite Nat.Div0.mod_mul, Nat.eqb_refl, Nat.div_mul by done.
  eexists. split; [reflexivity|]. split.
  - by rewrite length_map, length_chunks.
  - apply Forall_forall. intros slot Hin.
    apply list_elem_of_fmap in Hin as (c & -> & _). apply length_chunks.
Qed.

Lemma view3_empty (x : tensor coord) (n d : nat) :
  n * d = 0 -> view3 x n d = inl RuntimeError.
Proof. intros E. unfold view3. by rewrite E. Qed.

Lemma slot_points_length (x : tensor coord) (bs : list nat) (n d bi : nat) :
  shape x = bs ++ [n; d] -> 0 < n -> 0 < d -> bi < numel bs ->
  length (slot_points x n d bi) = n.
Proof.
  intros Hsh Hn Hd Hbi. unfold slot_points.
  destruct (view3_ok x bs n d Hsh Hn Hd) as (xv & -> & Hlen & Hall).
  destruct (lookup_lt_is_Some_2 xv bi) as [slot Hslot]; [lia|].
  simpl. rewrite Hslot. simpl. eapply Forall_lookup_1 in Hall; eauto.
Qed.

(** ** The brute-force search *)

Section Sorting.
Variable le : nat -> nat -> bool.
Hypothesis le_total : forall i j, le i j = true \/ le j i = true.
Hypothesis le_trans : forall i j l, le i j = true -> le j l = true -> le i l = true.

Local Abbreviation R := (fun i j : nat => le i j = true).

Lemma insert_by_perm (i : nat) (l : list nat) : insert_by le i l ≡ₚ i :: l.
Proof.
  induction l as [|j l IH]; simpl; [done|].
  destruct (le i j); [done|]. rewrite IH. apply Permutation_swap.
Qed.

Lemma sort_by_perm (l : list nat) : sort_by le l ≡ₚ l.
Proof.
  induction l as [|i l IH]; simpl; [done|].
  rewrite insert_by_perm. by rewrite IH.
Qed.

Lemma insert_by_sorted (i : nat) (l : list nat) :
  StronglySorted R l -> StronglySorted R (insert_by le i l).
Proof.
  induction l as [|j l IH]; simpl; intros Hs.
  - repeat constructor.
  - apply StronglySorted_inv in Hs as [Hs Hall].
    destruct (le i j) eqn:E.
    + constructor; [by constructor|]. constructor; [done|].
      eapply Forall_impl; [exact Hall|]. intros x Hx. cbv beta in *. eauto.
    + constructor; [auto|].
      rewrite insert_by_perm. constructor; [|done].
      destruct (le_total i j) as [Hij|Hji]; [congruence|done].
Qed.

Lemma sort_by_sorted (l : list nat) : StronglySorted R (sort_by le l).
Proof.
  induction l as [|i l IH]; simpl; [constructor|]. by apply insert_by_sorted.
Qed.

Lemma sort_by_split (l : list nat) (kn i j : nat) :
  i ∈ take kn (sort_by le l) -> j ∈ l -> j ∉ take kn (sort_by le l) ->
  le i j = true.
Proof.
  intros Hi Hj Hnj.
  assert (Hs := sort_by_sorted l).
  rewrite <- (take_drop kn (sort_by le l)) in Hs.
  eapply (StronglySorted_app_1_elem_of R); [exact Hs|exact Hi|].
  rewrite <- (sort_by_perm l), <- (take_drop kn (sort_by le l)) in Hj.
  apply elem_of_app in Hj as [Hj|Hj]; [contradiction|done].
Qed.

End Sorting.

Lemma knn_order_perm (pts : list point) (q : point) :
  knn_order pts q ≡ₚ seq 0 (length pts).
Proof. apply sort_by_perm. Qed.

Lemma search1_length (pts : list point) (kn : nat) (q : point) :
  length (search1 pts kn q) = kn.
Proof.
  unfold search1. rewrite length_take, length_app, length_replicate. lia.
Qed.

Lemma search1_full (pts : list point) (kn : nat) (q : point) :
  kn <= length pts ->
  search1 pts kn q = Z.of_nat <$> take kn (knn_order pts q).
Proof.
  intros Hk. unfold search1. rewrite take_app_le.
  - by rewrite fmap_take.
  - rewrite length_map, (Permutation_length (knn_order_perm pts q)), length_seq.
    done.
Qed.

(** Nothing stored: every label is [-1]. *)
Lemma search1_empty (kn : nat) (q : point) :
  search1 [] kn q = replicate kn (-1)%Z.
Proof.
  unfold search1, knn_order. simpl. apply take_ge. by rewrite length_replicate.
Qed.

Lemma search1_nearest (pts : list point) (kn : nat) (q : point) :
  kn <= length pts ->
  nearest_among pts q (length pts) kn (search1 pts kn q).
Proof.
  intros Hk. split; [apply search1_length|].
  rewrite (search1_full _ _ _ Hk).
  assert (Hnd : NoDup (knn_order pts q)).
  { rewrite knn_order_perm. apply NoDup_seq. }
  assert (Hin : forall j, j ∈ knn_order pts q <-> j < length pts).
  { intros j. rewrite knn_order_perm, elem_of_seq. lia. }
  split; [|split].
  - apply NoDup_fmap_2; [apply Nat2Z.inj'|].
    eapply sublist_NoDup; [exact Hnd|apply sublist_take].
  - intros v Hv. apply list_elem_of_fmap in Hv as (j & -> & Hj).
    assert (j ∈ knn_order pts q) as Hj'.
    { apply elem_of_take in Hj as (i0 & Hi0 & _).
      apply list_elem_of_lookup. eauto. }
    apply Hin in Hj'. lia.
  - intros j j' Hj Hj' Hnj'.
    apply list_elem_of_fmap in Hj as (j0 & E & Hj). apply Nat2Z.inj in E. subst j0.
    unfold knn_order in *.
    eapply (sort_by_split (le_from pts q)); [| |exact Hj| |].
    + intros a b. apply closer_total.
    + intros a b c. apply closer_trans.
    + apply elem_of_seq. lia.
    + intros Hc. apply Hnj'. apply list_elem_of_fmap. eauto.
Qed.

(** Searching the first [i] points of [xs] finds neighbours among them. *)
Lemma search1_prefix (xs : list point) (i kn : nat) (q : point) :
  kn <= i -> i <= length xs ->
  nearest_among xs q i kn (search1 (take i xs) kn q).
Proof.
  intros Hk Hi.
  assert (Hlen : length (take i xs) = i) by (rewrite length_take; lia).
  destruct (search1_nearest (take i xs) kn q) as (H1 & H2 & H3 & H4); [lia|].
  rewrite Hlen in H3, H4.
  split; [done|]. split; [done|]. split; [done|].
  intros j j' Hj Hj' Hnj'.
  assert (j < i) by (apply H3 in Hj; lia).
  specialize (H4 j j' Hj Hj' Hnj').
  rewrite !nth_lookup in *. by rewrite !lookup_take_lt in H4 by lia.
Qed.

(** ** Running computations *)

Lemma bind_inr {A B} (m : M A) (f : A -> M B) (w w' : world) (a : A) :
  m w = (inr a, w') -> bind m f w = f a w'.
Proof. intros E. unfold bind. by rewrite E. Qed.

Lemma bind_inl {A B} (m : M A) (f : A -> M B) (w w' : world) (e : exn) :
  m w = (inl e, w') -> bind m f w = (inl e, w').
Proof. intros E. unfold bind. by rewrite E. Qed.

Lemma read_only_bind {A B} (m : M A) (f : A -> M B) :
  read_only m -> (forall a, read_only (f a)) -> read_only (bind m f).
Proof.
  intros Hm Hf w. unfold bind. specialize (Hm w).
  destruct (m w) as [[e|a] w1]; simpl in *; subst; [done|apply Hf].
Qed.

Lemma read_only_ret {A} (a : A) : read_only (ret a).
Proof. by intros w. Qed.

Lemma read_only_raise {A} (e : exn) : read_only (@raise A e).
Proof. by intros w. Qed.

Lemma read_only_lift {A} (r : exn + A) : read_only (lift r).
Proof. by intros w. Qed.

Lemma read_only_assert (b : bool) (a : assertion) : read_only (assert b a).
Proof. by destruct b; intros w. Qed.

Lemma read_only_assert_some {A} (o : option A) (a : assertion) :
  read_only (assert_some o a).
Proof. by destruct o; intros w. Qed.

Lemma read_only_item {A} (l : list A) (i : nat) : read_only (item l i).
Proof. unfold item. by destruct (l !! i); intros w. Qed.

Lemma read_only_size_at (o : option nat) : read_only (size_at o).
Proof. by destruct o; intros w. Qed.

Lemma read_only_get_self : read_only get_self.
Proof. by intros w. Qed.

Lemma read_only_deref (a : addr) : read_only (deref a).
Proof. intros w. unfold deref. by destruct (heap w !! a). Qed.

Lemma read_only_index_search (a : addr) (qs : list point) (kn : nat) :
  read_only (index_search a qs kn).
Proof.
  apply read_only_bind; [apply read_only_deref|]. intros ix. apply read_only_ret.
Qed.

Lemma read_only_mapM {A B} (f : A -> M B) (l : list A) :
  (forall a, read_only (f a)) -> read_only (mapM f l).
Proof.
  intros Hf. induction l as [|a l IH]; simpl; [apply read_only_ret|].
  apply read_only_bind; [apply Hf|]. intros b.
  apply read_only_bind; [apply IH|]. intros bs. apply read_only_ret.
Qed.

Create HintDb ro.
#[local] Hint Resolve read_only_ret read_only_raise read_only_lift
  read_only_assert read_only_assert_some read_only_item read_only_size_at
  read_only_get_self read_only_deref read_only_index_search : ro.

Ltac ro_step :=
  first [ solve [auto with ro]
        | apply read_only_bind; [|intros ?]
        | apply read_only_mapM; intros ?
        | match goal with
          | |- read_only (match ?c with _ => _ end) => destruct c
          end ].

Lemma read_only_check_shape (x : tensor coord) :
  read_only (_expand_and_check_shape x).
Proof. unfold _expand_and_check_shape. repeat ro_step. Qed.

Lemma read_only_find_nn_idx (x : tensor coord) (kq : option Z) :
  read_only (find_nn_idx x kq).
Proof.
  unfold find_nn_idx. assert (H0 := read_only_check_shape). repeat ro_step.
Qed.

(** Equal steps give equal runs. *)
Lemma mapM_pure {A B} (f : A -> M B) (g : A -> B) (l : list A) (w : world) :
  (forall a, a ∈ l -> f a w = (inr (g a), w)) ->
  mapM f l w = (inr (map g l), w).
Proof.
  induction l as [|a l IH]; intros Hf; simpl; [done|].
  rewrite (bind_inr _ _ _ _ _ (Hf a (list_elem_of_here _ _))).
  rewrite (bind_inr _ _ w w (map g l)); [done|].
  apply IH. intros b Hb. apply Hf. by apply list_elem_of_further.
Qed.

Lemma mapM_agree {A B} (f : A -> M B) (l : list A) (w1 w2 : world) :
  (forall a, read_only (f a)) ->
  (forall a, a ∈ l -> fst (f a w1) = fst (f a w2)) ->
  fst (mapM f l w1) = fst (mapM f l w2).
Proof.
  intros Hro. induction l as [|a l IH]; intros Hf; simpl; [done|].
  unfold bind at 1 3.
  assert (E := Hf a (list_elem_of_here _ _)).
  assert (R1 := Hro a w1). assert (R2 := Hro a w2).
  destruct (f a w1) as [r1 u1], (f a w2) as [r2 u2]; simpl in *; subst.
  destruct r2 as [e|b]; [done|].
  assert (E : fst (mapM f l w1) = fst (mapM f l w2)).
  { apply IH. intros c Hc. apply Hf. by apply list_elem_of_further. }
  unfold bind.
  destruct (mapM f l w1) as [r1 u1], (mapM f l w2) as [r2 u2]; simpl in *; subst.
  by destruct r2.
Qed.

(** ** Shape validation *)

Lemma check_shape_ok (x : tensor coord) (w : world) (n d : nat) :
  shape x = batch_shape (self w) ++ [n; d] -> dim (self w) = Z.of_nat d ->
  _expand_and_check_shape x w = (inr x, w).
Proof.
  intros Hsh Hd. unfold _expand_and_check_shape.
  rewrite Hsh, length_app2_not_1, Hsh, all_but_last2_app, neg1_app.
  unfold bind, get_self, assert, size_at, ret. simpl.
  rewrite bool_decide_eq_true_2 by done. simpl.
  by rewrite Hd, Z.eqb_refl.
Qed.

Lemma check_shape_inv (x x' : tensor coord) (w w' : world) :
  _expand_and_check_shape x w = (inr x', w') ->
  w' = w /\ shape x' = promoted (shape x) /\ data x' = data x /\
  all_but_last2 (shape x') = batch_shape (self w) /\
  exists d, neg1 (shape x') = Some d /\ Z.of_nat d = dim (self w).
Proof.
  unfold _expand_and_check_shape, promoted, bind, get_self, assert, size_at,
    ret, raise.
  set (y := if length (shape x) =? 1 then unsqueeze_last x else x).
  assert (Hy : shape y = (if length (shape x) =? 1 then shape x ++ [1] else shape x)
               /\ data y = data x).
  { subst y. by destruct (length (shape x) =? 1). }
  destruct Hy as [Hy1 Hy2]. rewrite <- Hy1.
  destruct (bool_decide_reflect (all_but_last2 (shape y) = batch_shape (self w)));
    [|discriminate].
  destruct (neg1 (shape y)) as [d|] eqn:Hd; [|discriminate].
  destruct (Z.eqb_spec (Z.of_nat d) (dim (self w))); [|discriminate].
  intros [= <- <-]. eauto 10.
Qed.

Lemma check_shape_bad (x : tensor coord) (w : world) :
  bad_shape (self w) x ->
  exists a, _expand_and_check_shape x w = (inl (AssertionError a), w) /\
            classify (AssertionError a) = Some ShapeError.
Proof.
  unfold bad_shape, _expand_and_check_shape, promoted, bind, get_self, assert,
    size_at, ret, raise.
  set (y := if length (shape x) =? 1 then unsqueeze_last x else x).
  assert (Hy : shape y = (if length (shape x) =? 1 then shape x ++ [1] else shape x)).
  { subst y. by destruct (length (shape x) =? 1). }
  rewrite <- Hy.
  destruct (bool_decide_reflect (all_but_last2 (shape y) = batch_shape (self w)))
    as [Hb|Hb].
  - intros [Hc|(d & Hd & Hne)]; [done|]. rewrite Hd.
    destruct (Z.eqb_spec (Z.of_nat d) (dim (self w))); [done|]. eauto.
  - intros _. eauto.
Qed.

(** ** Index objects *)

Lemma index_reset_run (a : addr) (w : world) (ix : IndexFlatL2) :
  heap w !! a = Some ix ->
  index_reset a w =
  (inr tt, MkWorld (<[a := MkIndex (ix_d ix) (ix_gpu ix) []]> (heap w)) (self w)).
Proof. intros E. unfold index_reset, bind, deref, store. by rewrite E. Qed.

Lemma index_add_run (a : addr) (pts : list point) (w : world) (ix : IndexFlatL2) :
  heap w !! a = Some ix ->
  index_add a pts w =
  (inr tt, MkWorld (<[a := MkIndex (ix_d ix) (ix_gpu ix) (xb ix ++ pts)]> (heap w))
                   (self w)).
Proof. intros E. unfold index_add, bind, deref, store. by rewrite E. Qed.

Lemma index_search_run (a : addr) (qs : list point) (kn : nat) (w : world)
    (ix : IndexFlatL2) :
  heap w !! a = Some ix ->
  index_search a qs kn w = (inr (map (search1 (xb ix) kn) qs), w).
Proof. intros E. unfold index_search, bind, deref, ret. by rewrite E. Qed.

Lemma alloc_many {A} (d : Z) (g : bool) (l : list A) (w : world) :
  mapM (fun _ => new_index d g []) l w =
  (inr (seq (length (heap w)) (length l)),
   MkWorld (heap w ++ replicate (length l) (MkIndex d g [])) (self w)).
Proof.
  revert w. induction l as [|a l IH]; intros w; simpl.
  - unfold ret. rewrite app_nil_r. by destruct w.
  - unfold bind at 1. unfold new_index at 1.
    unfold bind. rewrite IH. simpl. unfold ret.
    rewrite length_app, <- app_assoc. simpl.
    by replace (length (heap w) + 1) with (S (length (heap w))) by lia.
Qed.

Lemma cpu_run (w : world) :
  cpu w = match nnlib (self w) with
          | faiss => (inr tt, realloc false None w)
          | sklearn => (inr tt, w)
          end.
Proof.
  unfold cpu, bind, get_self. destruct (nnlib (self w)) eqn:E; [|done].
  rewrite alloc_many, length_seq. unfold set_res_index, bind, get_self, put_self.
  simpl. reflexivity.
Qed.

Lemma cuda_run (w : world) :
  cuda w = match nnlib (self w) with
           | faiss => (inr tt, realloc true (Some tt) w)
           | sklearn => (inr tt, w)
           end.
Proof.
  unfold cuda, bind, get_self. destruct (nnlib (self w)) eqn:E; [|done].
  rewrite alloc_many, length_seq. unfold set_res_index, bind, get_self, put_self.
  simpl. reflexivity.
Qed.

Lemma realloc_wf (g : bool) (r : option unit) (w : world) :
  wf_world (realloc g r w) /\ populated (realloc g r w) 0.
Proof.
  unfold wf_world, populated, realloc. simpl. split.
  - intros _. split; [by rewrite length_seq|]. split; [apply NoDup_seq|].
    apply Forall_forall. intros a Ha. apply elem_of_seq in Ha.
    rewrite length_app, length_replicate. lia.
  - apply Forall_forall. intros a Ha. apply elem_of_seq in Ha.
    exists (MkIndex (dim (self w)) g []). split; [|done].
    rewrite lookup_app_r by lia. apply lookup_replicate. split; [done|lia].
Qed.

Lemma to_run (device : string) (w w' : world) (r : exn + unit) :
  to device w = (r, w') ->
  (r = inl ValueError /\ w' = w) \/
  (r = inr tt /\
   ((nnlib (self w) = sklearn /\ w' = w) \/
    (nnlib (self w) = faiss /\ exists g o, w' = realloc g o w))).
Proof.
  unfold to.
  destruct (String.eqb device "cpu"); [|destruct (contains "cuda" device)].
  - rewrite cpu_run. destruct (nnlib (self w)); intros [= <- <-]; eauto 10.
  - rewrite cuda_run. destruct (nnlib (self w)); intros [= <- <-]; eauto 10.
  - intros [= <- <-]. eauto.
Qed.

(** ** Construction *)

Lemma New_inv (k0 dim0 : Z) (bs : list nat) (pref : string) (inst : bool)
    (dev : string) (h : list IndexFlatL2) (w : world) :
  New k0 dim0 bs pref inst dev h = inr w ->
  (0 < k0)%Z /\ k (self w) = k0 /\ dim (self w) = dim0 /\
  batch_shape (self w) = bs /\ train_n (self w) = None /\
  nnlib (self w) = (if String.eqb pref "faiss" && inst then faiss else sklearn) /\
  wf_world w /\ populated w 0.
Proof.
  unfold New, __init__. unfold bind at 1. unfold assert.
  destruct (Z.ltb_spec 0 k0) as [Hk|Hk]; [|discriminate]. simpl.
  unfold bind at 1. unfold put_self at 1. simpl. unfold bind at 1.
  set (w0 := MkWorld h (MkNNUtil k0 dim0 bs None sklearn None [])).
  assert (Hsk : forall u r, to dev w0 = (r, u) ->
            match r with inr _ => inr u | inl e => inl e end = inr w ->
            w = w0).
  { intros u r Hto Hr. apply to_run in Hto as [[-> _]|[-> [[_ ->]|[Hc _]]]].
    - discriminate Hr.
    - by injection Hr.
    - discriminate Hc. }
  assert (Hw0 : wf_world w0 /\ populated w0 0).
  { split; [intros Hc; discriminate|constructor]. }
  destruct (String.eqb pref "faiss"); simpl; [destruct inst; simpl|].
  - unfold bind at 1. unfold set_nnlib at 1, bind, get_self, put_self. simpl.
    fold (@bind coord). rewrite cpu_run. simpl.
    set (w1 := realloc _ _ _).
    destruct (to dev w1) as [r u] eqn:Hto.
    apply to_run in Hto as [[-> _]|[-> [[Hc _]|[_ (g & o & ->)]]]];
      [done|done|].
    intros [= <-]. destruct (realloc_wf g o w1) as [H1 H2].
    by split_and!.
  - unfold set_nnlib, bind, get_self, put_self. simpl. fold w0.
    specialize (Hsk _ _ (surjective_pairing (to dev w0))).
    destruct (to dev w0) as [[e|[]] u]; simpl in Hsk; [done|].
    intros Hr. rewrite (Hsk Hr). by destruct Hw0.
  - unfold set_nnlib, bind, get_self, put_self. simpl. fold w0.
    specialize (Hsk _ _ (surjective_pairing (to dev w0))).
    destruct (to dev w0) as [[e|[]] u]; simpl in Hsk; [done|].
    intros Hr. rewrite (Hsk Hr). by destruct Hw0.
Qed.

(** ** Loops *)

(** A loop whose steps succeed and maintain an invariant on the world and on
    the elements processed so far. *)
Lemma mapM_inv {A B} (I : list A -> world -> Prop) (f : A -> M B) (g : A -> B)
    (l : list A) :
  (forall pre a w, a ∈ l -> I pre w ->
     exists w', f a w = (inr (g a), w') /\ I (pre ++ [a]) w') ->
  forall pre w, I pre w ->
    exists w', mapM f l w = (inr (map g l), w') /\ I (pre ++ l) w'.
Proof.
  induction l as [|a l IH]; intros Hstep pre w HI; simpl.
  - exists w. by rewrite app_nil_r.
  - destruct (Hstep pre a w (list_elem_of_here _ _) HI) as (w1 & E1 & HI1).
    destruct (IH (fun pre' a' u Ha' => Hstep pre' a' u (list_elem_of_further _ _ _ Ha'))
                 (pre ++ [a]) w1 HI1) as (w2 & E2 & HI2).
    exists w2. rewrite (bind_inr _ _ _ _ _ E1), (bind_inr _ _ _ _ _ E2).
    split; [done|]. by rewrite <- app_assoc in HI2.
Qed.

(** ** [set_nn_idx] with faiss *)

Lemma set_nn_idx_run (x : tensor coord) (w : world) (n d : nat) :
  nnlib (self w) = faiss -> wf_world w ->
  shape x = batch_shape (self w) ++ [n; d] -> dim (self w) = Z.of_nat d ->
  0 < n -> 0 < d ->
  exists w',
    set_nn_idx x w = (inr tt, w') /\
    self w' = MkNNUtil (k (self w)) (dim (self w)) (batch_shape (self w)) (Some n)
                       (nnlib (self w)) (res (self w)) (index (self w)) /\
    length (heap w') = length (heap w) /\
    (forall a, a ∉ index (self w) -> heap w' !! a = heap w !! a) /\
    (forall i a, index (self w) !! i = Some a ->
       exists ix, heap w' !! a = Some ix /\ xb ix = slot_points x n d i).
Proof.
  intros Hlib Hwf Hsh Hdim Hn Hd.
  destruct (Hwf Hlib) as (Hlen & Hnd & Hlive).
  destruct (view3_ok x _ n d Hsh Hn Hd) as (xv & Hview & Hxv & _).
  unfold set_nn_idx.
  rewrite (bind_inr _ _ _ _ _ (check_shape_ok x w n d Hsh Hdim)).
  rewrite Hsh, neg2_app. unfold size_at.
  unfold bind at 1. unfold ret at 1.
  unfold bind at 1. unfold set_train_n at 1, bind at 1, get_self at 1, put_self at 1.
  unfold bind at 1. unfold get_self at 1. simpl. rewrite Hlib.
  rewrite Hdim, Nat2Z.id, Hview.
  unfold bind at 1. unfold lift at 1.
  set (s1 := MkNNUtil _ _ _ _ _ _ _).
  set (idx := index (self w)) in *.
  pose (I := fun (pre : list nat) (u : world) =>
    self u = s1 /\ length (heap u) = length (heap w) /\
    (forall a, (forall i, i ∈ pre -> idx !! i <> Some a) -> heap u !! a = heap w !! a) /\
    (forall i a, i ∈ pre -> idx !! i = Some a ->
       exists ix, heap u !! a = Some ix /\ xb ix = default [] (xv !! i))).
  match goal with
  | |- context [mapM ?f ?l] =>
      assert (exists w', mapM f l (MkWorld (heap w) s1)
                         = (inr (map (fun _ => tt) l), w') /\ I ([] ++ l) w')
        as (w' & Hrun & Hs & Hl & Hother & Hset);
        [apply (mapM_inv I)|rewrite (bind_inr _ _ _ _ _ Hrun)]
  end.
  - intros pre j u Hj (Hs & Hl & Hother & Hset).
    apply elem_of_seq in Hj.
    destruct (lookup_lt_is_Some_2 idx j) as [a Ha]; [lia|].
    destruct (lookup_lt_is_Some_2 xv j) as [pts Hpts]; [lia|].
    assert (Hlt : a < length (heap u)).
    { rewrite Hl. eapply Forall_lookup_1 in Hlive; eauto. }
    destruct (lookup_lt_is_Some_2 (heap u) a Hlt) as [ix Hix].
    eexists. split.
    + unfold bind at 1. unfold item at 1. rewrite Ha. unfold ret at 1.
      rewrite (bind_inr _ _ _ _ _ (index_reset_run a u ix Hix)).
      unfold bind at 1. unfold item at 1. rewrite Hpts. unfold ret at 1.
      erewrite index_add_run; [reflexivity|].
      cbn [heap self]. by apply list_lookup_insert_eq.
    + unfold I. cbn [heap self ix_d ix_gpu xb].
      rewrite list_insert_insert_eq. split_and!.
      * done.
      * by rewrite length_insert.
      * intros a' Ha'. rewrite list_lookup_insert_ne.
        -- apply Hother. intros i Hi. apply Ha'. apply elem_of_app. by left.
        -- intros ->. apply (Ha' j); [|done]. apply elem_of_app. right.
           apply list_elem_of_singleton. done.
      * intros i a' Hi Ha'. destruct (decide (a' = a)) as [->|Hne].
        -- assert (i = j) as -> by (eapply NoDup_lookup; eauto).
           eexists. split; [by apply list_lookup_insert_eq|].
           simpl. by rewrite Hpts.
        -- rewrite list_lookup_insert_ne by done. apply Hset; [|done].
           apply elem_of_app in Hi as [Hi|Hi]; [done|].
           apply list_elem_of_singleton in Hi as ->. congruence.
  - subst I. simpl. split_and!; try done. intros i a Hi. by apply elem_of_nil in Hi.
  - exists w'. split; [done|]. split_and!; try done.
    + intros a Ha. apply Hother. intros i _ Hi. apply Ha.
      apply list_elem_of_lookup. eauto.
    + intros i a Ha. destruct (Hset i a) as (ix & E1 & E2); [|done|].
      * simpl. apply elem_of_seq. apply lookup_lt_Some in Ha. fold idx in Hlen. lia.
      * exists ix. split; [done|]. unfold slot_points. by rewrite Hview.
Qed.

(** ** [find_nn_idx] with faiss *)

Ltac mstep := erewrite bind_inr by reflexivity.

Lemma searched_eq (w : world) (xv : list (list point)) (kn i : nat) (a : addr)
    (qs : list point) (ix : IndexFlatL2) :
  index (self w) !! i = Some a -> xv !! i = Some qs -> heap w !! a = Some ix ->
  searched w xv kn i = map (search1 (xb ix) kn) qs.
Proof. intros E1 E2 E3. unfold searched. by rewrite E1, E2, E3. Qed.

Lemma find_nn_idx_run (x : tensor coord) (kq : option Z) (w : world) (kk : Z)
    (n m T d : nat) :
  nnlib (self w) = faiss -> wf_world w -> populated w m ->
  train_n (self w) = Some n ->
  (kq = None /\ kk = k (self w)) \/ (kq = Some kk /\ (0 < kk)%Z) ->
  (kk <= Z.of_nat n)%Z ->
  shape x = batch_shape (self w) ++ [T; d] -> dim (self w) = Z.of_nat d ->
  0 < T -> 0 < d ->
  exists out,
    find_nn_idx x kq w = (inr out, w) /\
    well_shaped out (batch_shape (self w)) T (Z.to_nat kk) /\
    Forall (Forall (fun row => exists pts q,
                      length pts = m /\ row = search1 pts (Z.to_nat kk) q))
           (islots out).
Proof.
  intros Hlib Hwf Hpop Htr Hkq Hkn Hsh Hdim HT Hd.
  destruct (Hwf Hlib) as (Hlen & Hnd & Hlive).
  destruct (view3_ok x _ T d Hsh HT Hd) as (xv & Hview & Hxv & Hslots).
  set (kn := Z.to_nat kk).
  exists (IdxTensor (batch_shape (self w) ++ [T; kn])
                    (map (searched w xv kn) (seq 0 (numel (batch_shape (self w)))))).
  split; [|split].
  - unfold find_nn_idx. mstep. rewrite Htr. mstep.
    assert (Hk' : (match kq with
                   | None => ret (k (self w))
                   | Some k' => assert (0 <? k')%Z query_k_positive;;; ret k'
                   end) w = (inr kk, w)).
    { destruct Hkq as [[-> ->]|[-> Hpos]]; [done|].
      unfold bind, assert. by destruct (Z.ltb_spec 0 kk); [|lia]. }
    rewrite (bind_inr _ _ _ _ _ Hk').
    destruct (Z.leb_spec kk (Z.of_nat n)); [|lia]. mstep.
    rewrite (bind_inr _ _ _ _ _ (check_shape_ok x w T d Hsh Hdim)).
    rewrite Hlib, Hsh, neg2_app. mstep.
    rewrite Hdim, Nat2Z.id, Hview. mstep.
    erewrite bind_inr; [reflexivity|].
    apply mapM_pure. intros i Hi. apply elem_of_seq in Hi.
    destruct (lookup_lt_is_Some_2 (index (self w)) i) as [a Ha]; [lia|].
    destruct (lookup_lt_is_Some_2 xv i) as [qs Hqs]; [lia|].
    assert (Hlt : a < length (heap w)) by (eapply Forall_lookup_1 in Hlive; eauto).
    destruct (lookup_lt_is_Some_2 (heap w) a Hlt) as [ix Hix].
    rewrite (searched_eq _ _ _ _ _ _ _ Ha Hqs Hix).
    unfold item. rewrite Ha, Hqs. do 2 mstep.
    by apply index_search_run.
  - split; [done|]. cbn [islots]. split; [by rewrite length_map, length_seq|].
    apply Forall_forall. intros slot Hslot.
    apply list_elem_of_fmap in Hslot as (i & -> & Hi). apply elem_of_seq in Hi.
    destruct (lookup_lt_is_Some_2 (index (self w)) i) as [a Ha]; [lia|].
    destruct (lookup_lt_is_Some_2 xv i) as [qs Hqs]; [lia|].
    assert (Hlt : a < length (heap w)) by (eapply Forall_lookup_1 in Hlive; eauto).
    destruct (lookup_lt_is_Some_2 (heap w) a Hlt) as [ix Hix].
    rewrite (searched_eq _ _ _ _ _ _ _ Ha Hqs Hix), length_map. split.
    + eapply Forall_lookup_1 in Hslots; eauto.
    + apply Forall_forall. intros row Hrow.
      apply list_elem_of_fmap in Hrow as (q & -> & _). apply search1_length.
  - cbn [islots]. apply Forall_forall. intros slot Hslot.
    apply list_elem_of_fmap in Hslot as (i & -> & Hi).
    unfold searched.
    destruct (index (self w) !! i) as [a|] eqn:Ha; [|constructor].
    destruct (xv !! i) as [qs|]; [|constructor].
    destruct (heap w !! a) as [ix|] eqn:Hix; [|constructor].
    apply Forall_forall. intros row Hrow.
    apply list_elem_of_fmap in Hrow as (q & -> & _).
    exists (xb ix), q. split; [|done].
    eapply Forall_lookup_1 in Hpop; eauto. destruct Hpop as (ix' & E & <-).
    rewrite Hix in E. by injection E as <-.
Qed.

(** ** [build_sequential_nn_idx] with faiss *)

Lemma sequential_rows_from (ix : addr) (kn : nat) (xs : list point) (d : Z) (g : bool)
    (cnt i : nat) (w : world) :
  i + cnt <= length xs ->
  heap w !! ix = Some (MkIndex d g (take i xs)) ->
  mapM (fun i => row <- item xs i;;
                 found <- index_search ix [row] kn;;
                 labels <- item found 0;;
                 index_add ix [row];;;
                 ret labels)
       (seq i cnt) w =
  (inr (map (seq_row xs kn) (seq i cnt)),
   MkWorld (<[ix := MkIndex d g (take (i + cnt) xs)]> (heap w)) (self w)).
Proof.
  revert i w. induction cnt as [|c IH]; intros i w Hlen Hix.
  - simpl. unfold ret. rewrite Nat.add_0_r, list_insert_id by done. by destruct w.
  - cbn [seq map mapM].
    destruct (lookup_lt_is_Some_2 xs i) as [row Hrow]; [lia|].
    assert (Hstep :
      (row <- item xs i;; found <- index_search ix [row] kn;;
       labels <- item found 0;; index_add ix [row];;; ret labels) w =
      (inr (seq_row xs kn i),
       MkWorld (<[ix := MkIndex d g (take (S i) xs)]> (heap w)) (self w))).
    { unfold item at 1. rewrite Hrow. mstep.
      rewrite (bind_inr _ _ _ _ _ (index_search_run ix [row] kn w _ Hix)).
      cbn [map xb]. unfold item. cbn [lookup list_lookup]. mstep.
      rewrite (bind_inr _ _ _ _ _ (index_add_run ix [row] w _ Hix)).
      cbn [ix_d ix_gpu xb]. unfold ret, seq_row.
      by rewrite (take_S_r _ _ _ Hrow), (nth_lookup_Some _ _ _ _ Hrow). }
    rewrite (bind_inr _ _ _ _ _ Hstep).
    erewrite bind_inr; [|apply IH].
    + unfold ret. cbn [heap self]. rewrite list_insert_insert_eq.
      by replace (S i + c) with (i + S c) by lia.
    + lia.
    + cbn [heap]. apply list_lookup_insert_eq. by eapply lookup_lt_Some.
Qed.

Lemma sequential_rows_run (ix : addr) (kn N : nat) (xs : list point) (d : Z)
    (g : bool) (w : world) :
  kn <= N -> N <= length xs ->
  heap w !! ix = Some (MkIndex d g (take kn xs)) ->
  sequential_rows ix kn N xs w =
  (inr (map (seq_row xs kn) (seq kn (N - kn))),
   MkWorld (<[ix := MkIndex d g (take N xs)]> (heap w)) (self w)).
Proof.
  intros Hk HN Hix. unfold sequential_rows.
  rewrite (sequential_rows_from ix kn xs d g (N - kn) kn w) by (done || lia).
  by replace (kn + (N - kn)) with N by lia.
Qed.

Lemma local_index_run (s : NNUtil) (w : world) :
  exists ix w1 g,
    local_index s w = (inr ix, w1) /\ self w1 = self w /\
    length (heap w) <= ix /\
    heap w1 !! ix = Some (MkIndex (dim s) g []) /\
    (forall a, a < length (heap w) -> heap w1 !! a = heap w !! a).
Proof.
  unfold local_index. mstep. destruct (res s) as [r|].
  - unfold index_cpu_to_gpu, bind, deref, new_index. cbn [heap self].
    rewrite lookup_app_r, Nat.sub_diag by done. cbn [lookup list_lookup ix_d xb].
    eexists _, _, true. split; [reflexivity|]. cbn [heap self]. split_and!.
    + done.
    + rewrite length_app. simpl. lia.
    + rewrite lookup_app_r; rewrite length_app; simpl; [|lia].
      by replace (length (heap w) + 1 - (length (heap w) + 1)) with 0 by lia.
    + intros a Ha. rewrite <- app_assoc. by apply lookup_app_l.
  - eexists _, _, false. split; [reflexivity|]. cbn [heap self]. split_and!.
    + done.
    + done.
    + by rewrite lookup_app_r, Nat.sub_diag.
    + intros a Ha. by apply lookup_app_l.
Qed.

Lemma build_slot_run (ix : addr) (kn N : nat) (xs pts : list point) (d : Z)
    (g : bool) (w : world) :
  kn <= N -> N <= length xs ->
  heap w !! ix = Some (MkIndex d g pts) ->
  (index_reset ix;;; index_add ix (take kn xs);;; sequential_rows ix kn N xs) w =
  (inr (map (seq_row xs kn) (seq kn (N - kn))),
   MkWorld (<[ix := MkIndex d g (take N xs)]> (heap w)) (self w)).
Proof.
  intros Hk HN Hix.
  assert (Hlt : ix < length (heap w)) by (by eapply lookup_lt_Some).
  rewrite (bind_inr _ _ _ _ _ (index_reset_run ix w _ Hix)). cbn [ix_d ix_gpu].
  erewrite bind_inr; [|apply index_add_run; cbn [heap]; by apply list_lookup_insert_eq].
  cbn [heap self ix_d ix_gpu xb app].
  erewrite sequential_rows_run; [|done|done|].
  - cbn [heap self]. by rewrite !list_insert_insert_eq.
  - cbn [heap]. apply list_lookup_insert_eq. by rewrite length_insert.
Qed.

Lemma build_sequential_run (x : tensor coord) (w : world) (N d : nat) :
  nnlib (self w) = faiss -> (0 < k (self w))%Z ->
  shape x = batch_shape (self w) ++ [N; d] -> dim (self w) = Z.of_nat d ->
  (k (self w) < Z.of_nat N)%Z -> 0 < d ->
  exists w',
    build_sequential_nn_idx x w =
    (inr (IdxTensor
            (batch_shape (self w) ++ [N - Z.to_nat (k (self w)); Z.to_nat (k (self w))])
            (sequential_slots x (numel (batch_shape (self w))) N d
                              (Z.to_nat (k (self w))))), w') /\
    self w' = self w /\
    (forall a, a < length (heap w) -> heap w' !! a = heap w !! a).
Proof.
  intros Hlib Hk Hsh Hdim HkN Hd.
  set (kn := Z.to_nat (k (self w))).
  assert (HN : 0 < N) by lia.
  destruct (view3_ok x _ N d Hsh HN Hd) as (xv & Hview & Hxv & Hslots).
  destruct (local_index_run (self w) w) as (ix & w1 & g & Hloc & Hs1 & Hfresh & Hix & Hold).
  unfold build_sequential_nn_idx.
  rewrite (bind_inr _ _ _ _ _ (check_shape_ok x w N d Hsh Hdim)).
  rewrite Hsh, neg2_app. do 2 mstep.
  destruct (Z.ltb_spec (k (self w)) (Z.of_nat N)); [|lia]. mstep.
  rewrite Hlib, (bind_inr _ _ _ _ _ Hloc), Hdim, Nat2Z.id, Hview. mstep.
  fold kn.
  pose (I := fun (pre : list nat) (u : world) =>
    self u = self w /\
    (forall a, a <> ix -> heap u !! a = heap w1 !! a) /\
    exists pts, heap u !! ix = Some (MkIndex (Z.of_nat d) g pts)).
  match goal with
  | |- context [mapM ?f ?l] =>
      assert (exists w', mapM f l w1
                = (inr (map (fun bi => map (seq_row (map (map to_float32)
                                                  (slot_points x N d bi)) kn)
                                           (seq kn (N - kn))) l), w')
              /\ I ([] ++ l) w')
        as (w' & Hrun & Hs & Hother & _);
        [apply (mapM_inv I)|rewrite (bind_inr _ _ _ _ _ Hrun)]
  end.
  - intros pre bi u Hbi (Hs & Hother & pts & Hpts).
    apply elem_of_seq in Hbi.
    destruct (lookup_lt_is_Some_2 xv bi) as [sl Hsl]; [lia|].
    assert (Hlen : length sl = N) by (eapply Forall_lookup_1 in Hslots; eauto).
    assert (Hpt : slot_points x N d bi = sl).
    { unfold slot_points. by rewrite Hview, Hsl. }
    rewrite Hpt.
    eexists. split.
    + unfold item. rewrite list_lookup_fmap, Hsl. cbn [fmap option_fmap option_map].
      mstep. apply (build_slot_run ix kn N _ pts (Z.of_nat d) g u); [lia| |done].
      by rewrite length_map, Hlen.
    + unfold I. cbn [heap self]. split_and!; [done| |].
      * intros a Ha. rewrite list_lookup_insert_ne by done. by apply Hother.
      * eexists. apply list_lookup_insert_eq. by eapply lookup_lt_Some.
  - unfold I. split_and!; [done|done|]. rewrite <- Hdim. eauto.
  - exists w'. split; [done|]. split; [done|].
    intros a Ha. rewrite Hother by lia. by apply Hold.
Qed.

(** ** What a call leaves unchanged *)

Lemma touches_read_only {A} (a : addr) (m : M A) : read_only m -> touches a m.
Proof.
  intros Hm w. specialize (Hm w). destruct (m w) as [r w']. simpl in *. subst w'.
  split; [reflexivity|]. intros b _. reflexivity.
Qed.

Lemma touches_bind {A B} (a : addr) (m : M A) (f : A -> M B) :
  touches a m -> (forall v, touches a (f v)) -> touches a (bind m f).
Proof.
  intros Hm Hf w. unfold bind. destruct (Hm w) as [H1 H2].
  destruct (m w) as [[e|v] w1]; simpl in *; [done|].
  destruct (Hf v w1) as [H3 H4]. split; [congruence|].
  intros b Hb. by rewrite H4, H2.
Qed.

Lemma touches_store (a : addr) (ix : IndexFlatL2) : touches a (store a ix).
Proof.
  intros w. unfold store. cbn [snd heap self]. split; [done|].
  intros b Hb. by apply list_lookup_insert_ne.
Qed.

Lemma touches_index_reset (a : addr) : touches a (index_reset a).
Proof.
  apply touches_bind; [apply touches_read_only, read_only_deref|].
  intros ix. apply touches_store.
Qed.

Lemma touches_index_add (a : addr) (pts : list point) : touches a (index_add a pts).
Proof.
  apply touches_bind; [apply touches_read_only, read_only_deref|].
  intros ix. apply touches_store.
Qed.

Lemma touches_mapM {A B} (a : addr) (f : A -> M B) (l : list A) :
  (forall v, touches a (f v)) -> touches a (mapM f l).
Proof.
  intros Hf. induction l as [|v l IH]; simpl.
  - apply touches_read_only, read_only_ret.
  - apply touches_bind; [apply Hf|]. intros b.
    apply touches_bind; [apply IH|]. intros bs.
    apply touches_read_only, read_only_ret.
Qed.

Ltac touch_step :=
  first [ apply touches_index_reset
        | apply touches_index_add
        | apply touches_read_only; solve [auto with ro]
        | apply touches_bind; [|intros ?]
        | apply touches_mapM; intros ? ].

Lemma touches_sequential_rows (ix : addr) (kn N : nat) (xs : list point) :
  touches ix (sequential_rows ix kn N xs).
Proof. unfold sequential_rows. repeat touch_step. Qed.

Lemma build_sequential_frame (x : tensor coord) (w w' : world) (r : exn + idx_tensor) :
  build_sequential_nn_idx x w = (r, w') ->
  self w' = self w /\
  forall a, a < length (heap w) -> heap w' !! a = heap w !! a.
Proof.
  assert (Hsame : forall r0, (r0, w) = (r, w') -> self w' = self w /\
            forall a, a < length (heap w) -> heap w' !! a = heap w !! a).
  { intros r0 [= <- <-]. by split. }
  unfold build_sequential_nn_idx. unfold bind at 1.
  assert (Hro := read_only_check_shape x w).
  destruct (_expand_and_check_shape x w) as [[e|x'] w0]; simpl in Hro; subst w0;
    [apply Hsame|].
  unfold bind at 1. unfold size_at.
  destruct (neg2 (shape x')) as [N|]; [|apply Hsame]. unfold ret at 1.
  mstep. unfold bind at 1. unfold assert.
  destruct (k (self w) <? Z.of_nat N)%Z; [|apply Hsame]. unfold ret at 1.
  destruct (nnlib (self w)); [|apply Hsame].
  destruct (local_index_run (self w) w) as (ix & w1 & g & Hloc & Hs1 & Hfresh & _ & Hold).
  rewrite (bind_inr _ _ _ _ _ Hloc).
  match goal with
  | |- ?m w1 = _ -> _ => assert (Ht : touches ix m)
  end.
  { pose proof touches_sequential_rows. repeat touch_step. }
  intros E. destruct (Ht w1) as [H1 H2]. rewrite E in H1, H2. simpl in H1, H2.
  split; [congruence|].
  intros a Ha. rewrite H2 by lia. by apply Hold.
Qed.

Lemma bind_agree {A B} (m : M A) (f : A -> M B) (w1 w2 : world) :
  read_only m -> fst (m w1) = fst (m w2) ->
  (forall a, fst (m w1) = inr a -> fst (f a w1) = fst (f a w2)) ->
  fst (bind m f w1) = fst (bind m f w2).
Proof.
  intros Hro Hm Hf. unfold bind.
  assert (R1 := Hro w1). assert (R2 := Hro w2).
  destruct (m w1) as [r1 u1], (m w2) as [r2 u2]; simpl in *; subst.
  destruct r2 as [e|a]; [done|]. by apply Hf.
Qed.

Ltac pure_agree :=
  unfold assert, assert_some, item, size_at, lift, ret, raise;
  repeat case_match; reflexivity.

Ltac agree_step :=
  apply bind_agree; [solve [repeat ro_step] | try pure_agree | intros ? ?].

(** The result of a query is determined by [self] and by the index objects
    that [self.index] refers to. *)
Lemma find_nn_idx_agree (x : tensor coord) (kq : option Z) (w1 w2 : world) :
  self w1 = self w2 ->
  (forall a, a ∈ index (self w1) -> heap w1 !! a = heap w2 !! a) ->
  fst (find_nn_idx x kq w1) = fst (find_nn_idx x kq w2).
Proof.
  intros Hs Hh. unfold find_nn_idx.
  agree_step; [simpl; by rewrite Hs|].
  match goal with E : fst (get_self w1) = inr _ |- _ => injection E as <- end.
  agree_step. agree_step. agree_step.
  assert (Hro := read_only_check_shape).
  agree_step.
  { unfold _expand_and_check_shape. agree_step; [simpl; by rewrite Hs|].
    repeat agree_step. pure_agree. }
  destruct (nnlib (self w1)); [|done].
  agree_step. agree_step. agree_step; [|pure_agree].
  apply mapM_agree; [intros i; repeat ro_step|].
  intros i _. agree_step. agree_step.
  unfold index_search.
  match goal with
  | E : fst (item (index (self w1)) i w1) = inr ?a |- _ =>
      assert (Hin : a ∈ index (self w1))
  end.
  { unfold item in *. destruct (index (self w1) !! i) as [a'|] eqn:Ha; [|done].
    simpl in *. apply list_elem_of_lookup.
    match goal with E : inr _ = inr _ |- _ => injection E as <- end. eauto. }
  agree_step; [|pure_agree].
  unfold deref. rewrite <- (Hh _ Hin). by destruct (heap w1 !! _).
Qed.

(** ** Properties of the specification *)

Lemma values_Forall (P : Z -> Prop) (out : idx_tensor) :
  Forall (Forall (Forall P)) (islots out) -> Forall P (values out).
Proof.
  intros Hall. unfold values. apply Forall_concat.
  apply Forall_concat. exact Hall.
Qed.

Lemma sequential_slots_lookup (x : tensor coord) (m N d kn bi i : nat) :
  bi < m -> kn <= i < N ->
  exists slot,
    sequential_slots x m N d kn !! bi = Some slot /\
    slot !! (i - kn) =
      Some (seq_row (map (map to_float32) (slot_points x N d bi)) kn i).
Proof.
  intros Hbi Hi. unfold sequential_slots. eexists. split.
  - rewrite list_lookup_fmap, lookup_seq_lt by done. reflexivity.
  - rewrite list_lookup_fmap, lookup_seq_lt by lia. simpl.
    by replace (kn + (i - kn)) with i by lia.
Qed.

(** C1.  With the faiss backend, for an array of [N] points per batch slot
    (leading sizes equal to [batch_shape], last size equal to [dim],
    [k < N]), [build_sequential_nn_idx] returns, and for every slot [bi] and
    every point [i] from [k] to [N-1] its row [i-k] holds the [k] nearest
    neighbours of point [i] among the points [0..i-1] of that slot: [k]
    distinct labels, all in [[0, i)], none farther from point [i] than a
    point of [[0, i)] that is left out. *)
Theorem C1_sequential_neighbors_are_causal (x : tensor coord) (w : world) (N d : nat) :
  nnlib (self w) = faiss -> (0 < k (self w))%Z ->
  shape x = batch_shape (self w) ++ [N; d] -> dim (self w) = Z.of_nat d ->
  0 < d -> (k (self w) < Z.of_nat N)%Z ->
  exists out w',
    build_sequential_nn_idx x w = (inr out, w') /\
    forall bi i,
      bi < numel (batch_shape (self w)) -> Z.to_nat (k (self w)) <= i < N ->
      exists slot row,
        islots out !! bi = Some slot /\
        slot !! (i - Z.to_nat (k (self w))) = Some row /\
        nearest_among (map (map to_float32) (slot_points x N d bi))
                      (nth i (map (map to_float32) (slot_points x N d bi)) [])
                      i (Z.to_nat (k (self w))) row.
Proof.
  intros Hlib Hk Hsh Hdim Hd HkN.
  destruct (build_sequential_run x w N d Hlib Hk Hsh Hdim HkN Hd)
    as (w' & Hrun & _).
  eexists _, w'. split; [exact Hrun|]. cbn [islots].
  intros bi i Hbi Hi.
  destruct (sequential_slots_lookup x _ N d _ bi i Hbi Hi) as (slot & E1 & E2).
  exists slot. eexists. split; [exact E1|]. split; [exact E2|].
  apply search1_prefix; [lia|].
  rewrite length_map, (slot_points_length x _ N d bi Hsh); [lia|lia|done|done].
Qed.

Lemma set_nn_idx_populated (x : tensor coord) (w : world) (n d : nat) :
  nnlib (self w) = faiss -> wf_world w ->
  shape x = batch_shape (self w) ++ [n; d] -> dim (self w) = Z.of_nat d ->
  0 < n -> 0 < d ->
  exists w',
    set_nn_idx x w = (inr tt, w') /\
    self w' = MkNNUtil (k (self w)) (dim (self w)) (batch_shape (self w)) (Some n)
                       (nnlib (self w)) (res (self w)) (index (self w)) /\
    wf_world w' /\ populated w' n.
Proof.
  intros Hlib Hwf Hsh Hdim Hn Hd.
  destruct (set_nn_idx_run x w n d Hlib Hwf Hsh Hdim Hn Hd)
    as (w' & Hrun & Hs & Hlen & _ & Hset).
  destruct (Hwf Hlib) as (Hidx & Hnd & Hlive).
  exists w'. split; [done|]. split; [done|]. split.
  - intros _. rewrite Hs. cbn [index batch_shape]. by rewrite Hlen.
  - unfold populated. rewrite Hs. cbn [index].
    apply Forall_lookup_2. intros i a Ha.
    destruct (Hset i a Ha) as (ix & E1 & E2). exists ix. split; [done|].
    unfold ntotal. rewrite E2. apply (slot_points_length x _ n d i Hsh Hn Hd).
    apply lookup_lt_Some in Ha. lia.
Qed.

(** C2, as amended.  With the faiss backend, for every [k > 0], [dim >= 1]
    and [batch_shape]: after construction, [set_nn_idx] on [N >= k] training
    points of shape [( *batch_shape, N, dim)] returns, and then
    [find_nn_idx] on [T >= 1] test points of shape [( *batch_shape, T, dim)]
    with that [k] returns, without changing the state, an index array of
    shape [( *batch_shape, T, k)] in which every value lies in [[0, N)]. *)
Theorem C2_query_shape_and_range (k0 : Z) (d : nat) (bs : list nat) (dev : string)
    (h : list IndexFlatL2) (w0 : world) (train test : tensor coord) (N T : nat) :
  New k0 (Z.of_nat d) bs "faiss" true dev h = inr w0 ->
  0 < d -> shape train = bs ++ [N; d] -> (k0 <= Z.of_nat N)%Z ->
  shape test = bs ++ [T; d] -> 0 < T ->
  exists w1 out,
    set_nn_idx train w0 = (inr tt, w1) /\
    find_nn_idx test (Some k0) w1 = (inr out, w1) /\
    well_shaped out bs T (Z.to_nat k0) /\
    Forall (fun v => (0 <= v < Z.of_nat N)%Z) (values out).
Proof.
  intros Hnew Hd Htrain HkN Htest HT.
  apply New_inv in Hnew as (Hk & Ek & Edim & Ebs & _ & Elib & Hwf & _).
  simpl in Elib. subst bs.
  destruct (set_nn_idx_populated train w0 N d Elib Hwf Htrain Edim)
    as (w1 & Hset & Hs & Hwf1 & Hpop); [lia|done|].
  assert (Ebs1 : batch_shape (self w1) = batch_shape (self w0)) by by rewrite Hs.
  destruct (find_nn_idx_run test (Some k0) w1 k0 N N T d)
    as (out & Hfind & Hshape & Hrows); try (rewrite Hs; cbn; done); try done.
  { right. by split. }
  exists w1, out. rewrite Ebs1 in Hshape. split_and!; try done.
  apply values_Forall. eapply Forall_impl; [exact Hrows|]. intros slot Hslot.
  eapply Forall_impl; [exact Hslot|]. intros row (pts & q & Hlen & ->).
  apply Forall_forall. intros v Hv.
  destruct (search1_nearest pts (Z.to_nat k0) q) as (_ & _ & Hrange & _); [lia|].
  rewrite Hlen in Hrange. by apply Hrange.
Qed.

(** C3, as amended.  With the faiss backend, in a state where [set_nn_idx]
    has been called ([train_n] is set), a successful [to] replaces every
    per-slot index by a new, empty one, so the indexed points are discarded,
    but leaves [train_n] as it was.  A later [find_nn_idx] therefore passes
    the state check: for a valid [k] and [T >= 1] well-shaped test points it
    returns an array of shape [( *batch_shape, T, k)] filled with [-1]. *)
Theorem C3_set_device_discards_points_not_train_n (w w' : world) (dev : string)
    (n : nat) (test : tensor coord) (kq : option Z) (kk : Z) (T d : nat) :
  nnlib (self w) = faiss -> train_n (self w) = Some n ->
  to dev w = (inr tt, w') ->
  populated w' 0 /\ train_n (self w') = Some n /\
  ((kq = None /\ kk = k (self w)) \/ (kq = Some kk /\ (0 < kk)%Z) ->
   (kk <= Z.of_nat n)%Z ->
   shape test = batch_shape (self w) ++ [T; d] -> dim (self w) = Z.of_nat d ->
   0 < T -> 0 < d ->
   exists out,
     find_nn_idx test kq w' = (inr out, w') /\
     well_shaped out (batch_shape (self w)) T (Z.to_nat kk) /\
     Forall (fun v => v = (-1)%Z) (values out)).
Proof.
  intros Hlib Htr Hto.
  apply to_run in Hto as [[Hc _]|[_ [[Hc _]|[_ (g & o & ->)]]]];
    [discriminate Hc|congruence|].
  destruct (realloc_wf g o w) as [Hwf Hpop].
  split; [done|]. split; [done|].
  intros Hkq Hkn Hsh Hdim HT Hd.
  destruct (find_nn_idx_run test kq (realloc g o w) kk n 0 T d)
    as (out & Hfind & Hshape & Hrows); try done.
  exists out. split; [done|]. split; [done|].
  apply values_Forall. eapply Forall_impl; [exact Hrows|]. intros slot Hslot.
  eapply Forall_impl; [exact Hslot|]. intros row (pts & q & Hlen & ->).
  apply nil_length_inv in Hlen as ->. rewrite search1_empty.
  apply Forall_forall. intros v Hv. by apply elem_of_replicate_inv in Hv.
Qed.

(** C4.  [find_nn_idx] fails with the state error whenever [train_n] was
    never set; once it is set, a supplied [k] outside [0 < k <= train_n]
    makes it fail with a range error; and an omitted [k] stands for the [k]
    of the constructor (which is positive).  In each failure the state is
    unchanged and the test points are not even looked at. *)
Theorem C4_query_state_and_range_checks (w : world) (x : tensor coord) :
  (train_n (self w) = None ->
   forall kq, find_nn_idx x kq w = (inl (AssertionError initialized), w) /\
              classify (AssertionError initialized) = Some StateError) /\
  (forall n k', train_n (self w) = Some n ->
     (k' <= 0)%Z \/ (Z.of_nat n < k')%Z ->
     exists a, find_nn_idx x (Some k') w = (inl (AssertionError a), w) /\
               classify (AssertionError a) = Some RangeError) /\
  ((0 < k (self w))%Z ->
   find_nn_idx x None w = find_nn_idx x (Some (k (self w))) w).
Proof.
  split; [|split].
  - intros Htr kq. split; [|done]. unfold find_nn_idx. mstep. by rewrite Htr.
  - intros n k' Htr Hk. unfold find_nn_idx. mstep. rewrite Htr. mstep.
    unfold bind, assert, ret, raise.
    destruct (Z.ltb_spec 0 k'); [|by eexists].
    destruct (Z.leb_spec k' (Z.of_nat n)); [lia|by eexists].
  - intros Hk. unfold find_nn_idx. rewrite !(bind_inr get_self _ w w (self w)) by done.
    destruct (train_n (self w)) as [n|]; [|done]. mstep.
    unfold bind at 1 4. unfold bind at 3. unfold assert.
    by destruct (Z.ltb_spec 0 (k (self w))); [|lia].
Qed.

(** C7.  For an array of [N] points per slot, [build_sequential_nn_idx]
    fails with the range error when [N <= k], whatever the backend, and with
    faiss and [N > k] it returns an array of shape
    [( *batch_shape, N-k, k)]. *)
Theorem C7_build_range_check_and_shape (x : tensor coord) (w : world) (N d : nat) :
  shape x = batch_shape (self w) ++ [N; d] -> dim (self w) = Z.of_nat d ->
  ((Z.of_nat N <= k (self w))%Z ->
   build_sequential_nn_idx x w = (inl (AssertionError k_lt_N), w) /\
   classify (AssertionError k_lt_N) = Some RangeError) /\
  (nnlib (self w) = faiss -> (0 < k (self w))%Z -> 0 < d ->
   (k (self w) < Z.of_nat N)%Z ->
   exists out w',
     build_sequential_nn_idx x w = (inr out, w') /\
     well_shaped out (batch_shape (self w)) (N - Z.to_nat (k (self w)))
                 (Z.to_nat (k (self w)))).
Proof.
  intros Hsh Hdim. split.
  - intros HNk. split; [|done]. unfold build_sequential_nn_idx.
    rewrite (bind_inr _ _ _ _ _ (check_shape_ok x w N d Hsh Hdim)).
    rewrite Hsh, neg2_app. do 2 mstep.
    by destruct (Z.ltb_spec (k (self w)) (Z.of_nat N)); [lia|].
  - intros Hlib Hk Hd HkN.
    destruct (build_sequential_run x w N d Hlib Hk Hsh Hdim HkN Hd)
      as (w' & Hrun & _).
    eexists _, w'. split; [exact Hrun|].
    split; [done|]. cbn [islots]. unfold sequential_slots.
    split; [by rewrite length_map, length_seq|].
    apply Forall_forall. intros slot Hslot.
    apply list_elem_of_fmap in Hslot as (bi & -> & _).
    rewrite length_map, length_seq. split; [done|].
    apply Forall_forall. intros row Hrow.
    apply list_elem_of_fmap in Hrow as (i & -> & _). apply search1_length.
Qed.


Lemma check_shape_rank1 (x : tensor coord) (N : nat) :
  shape x = [N] ->
  _expand_and_check_shape x = _expand_and_check_shape (unsqueeze_last x).
Proof. intros Hsh. unfold _expand_and_check_shape. cbn [unsqueeze_last shape]. by rewrite Hsh. Qed.

(** C8, as amended.  At [set_nn_idx], [find_nn_idx] and
    [build_sequential_nn_idx]: a rank-1 input of length [N] is treated as
    the array of shape [(N, 1)] with the same elements, which is accepted
    when [dim = 1] and [batch_shape] is empty.  On an input whose leading
    sizes differ from [batch_shape] or whose last size differs from [dim],
    [set_nn_idx] and [build_sequential_nn_idx] fail with a shape error;
    [find_nn_idx], which checks [train_n] and [k] first, fails with a shape
    error when those checks pass and with the state or range error
    otherwise.  In each of these failures the state is unchanged (so
    [train_n] is unchanged by a failing [set_nn_idx]). *)
Theorem C8_shape_validation_at_entry_points (w : world) (x : tensor coord) :
  (forall N, shape x = [N] ->
     set_nn_idx x = set_nn_idx (unsqueeze_last x) /\
     (forall kq, find_nn_idx x kq = find_nn_idx (unsqueeze_last x) kq) /\
     build_sequential_nn_idx x = build_sequential_nn_idx (unsqueeze_last x) /\
     (batch_shape (self w) = [] -> dim (self w) = 1%Z ->
      _expand_and_check_shape x w = (inr (Tensor [N; 1] (data x)), w))) /\
  (bad_shape (self w) x ->
     (exists a, set_nn_idx x w = (inl (AssertionError a), w) /\
                classify (AssertionError a) = Some ShapeError) /\
     (exists a, build_sequential_nn_idx x w = (inl (AssertionError a), w) /\
                classify (AssertionError a) = Some ShapeError) /\
     (forall kq, exists a,
        find_nn_idx x kq w = (inl (AssertionError a), w) /\
        (classify (AssertionError a) = Some ShapeError \/
         classify (AssertionError a) = Some StateError \/
         classify (AssertionError a) = Some RangeError) /\
        (forall n kk, train_n (self w) = Some n ->
           (kq = None /\ kk = k (self w)) \/ (kq = Some kk /\ (0 < kk)%Z) ->
           (kk <= Z.of_nat n)%Z ->
           classify (AssertionError a) = Some ShapeError))).
Proof.
  split.
  - intros N Hsh. assert (Hc := check_shape_rank1 x N Hsh). split_and!.
    + unfold set_nn_idx. by rewrite Hc.
    + intros kq. unfold find_nn_idx. by rewrite Hc.
    + unfold build_sequential_nn_idx. by rewrite Hc.
    + intros Hbs Hdim. rewrite Hc.
      rewrite (check_shape_ok (unsqueeze_last x) w N 1).
      * unfold unsqueeze_last. by rewrite Hsh.
      * cbn [unsqueeze_last shape]. by rewrite Hsh, Hbs.
      * by rewrite Hdim.
  - intros Hbad. destruct (check_shape_bad x w Hbad) as (a & Hc & Hcl). split_and!.
    + exists a. split; [|done]. unfold set_nn_idx. by rewrite (bind_inl _ _ _ _ _ Hc).
    + exists a. split; [|done]. unfold build_sequential_nn_idx.
      by rewrite (bind_inl _ _ _ _ _ Hc).
    + intros kq. unfold find_nn_idx. mstep.
      destruct (train_n (self w)) as [n|] eqn:Htr; [|by eexists; split_and!; eauto].
      mstep.
      assert (Hk : exists r,
                 (match kq with
                  | None => ret (k (self w))
                  | Some k' => assert (0 <? k')%Z query_k_positive;;; ret k'
                  end) w = (r, w) /\
                 match r with
                 | inl e => e = AssertionError query_k_positive /\
                            exists k', kq = Some k' /\ (k' <= 0)%Z
                 | inr kk => (kq = None /\ kk = k (self w)) \/ kq = Some kk
                 end).
      { destruct kq as [k'|].
        - unfold bind, assert, ret, raise.
          destruct (Z.ltb_spec 0 k'); eexists; (split; [reflexivity|]);
            cbv beta iota; eauto.
        - eexists. split; [reflexivity|]. cbv beta iota. by left. }
      destruct Hk as ([e|kk] & Hk & Hr).
      * destruct Hr as (-> & k' & -> & Hk').
        rewrite (bind_inl _ _ _ _ _ Hk). eexists. split; [done|]. split; [eauto|].
        intros n0 kk _ [[Hc' _]|[[= <-] Hpos]] _; [done|lia].
      * rewrite (bind_inr _ _ _ _ _ Hk). unfold assert.
        destruct (Z.leb_spec kk (Z.of_nat n)) as [Hle|Hgt].
        -- mstep. rewrite (bind_inl _ _ _ _ _ Hc). exists a. split_and!; eauto.
        -- unfold bind, raise. eexists. split; [done|]. split; [eauto|].
           intros n0 kk0 [= <-] Hkq Hle.
           destruct Hr as [[-> ->]| ->], Hkq as [[Hq ->]|[Hq _]]; try done;
             try lia. injection Hq as <-. lia.
Qed.

(** C10.  [find_nn_idx] and [build_sequential_nn_idx] never change the
    state of the utility, whatever they return: after [find_nn_idx] the
    whole world is as before; after [build_sequential_nn_idx] every attribute
    of [self] and every index object that was alive before the call (so
    every object of [self.index]) is as before, the call having worked on an
    object of its own; and a query made after it returns what it would have
    returned before it. *)
Theorem C10_query_and_build_leave_state (w : world) (x y : tensor coord)
    (kq : option Z) :
  Forall (fun a => a < length (heap w)) (index (self w)) ->
  snd (find_nn_idx x kq w) = w /\
  self (snd (build_sequential_nn_idx x w)) = self w /\
  (forall a, a ∈ index (self w) ->
             heap (snd (build_sequential_nn_idx x w)) !! a = heap w !! a) /\
  fst (find_nn_idx y kq (snd (build_sequential_nn_idx x w)))
  = fst (find_nn_idx y kq w).
Proof.
  intros Hlive. split; [apply read_only_find_nn_idx|].
  destruct (build_sequential_nn_idx x w) as [r w'] eqn:Hrun.
  apply build_sequential_frame in Hrun as [Hs Hh]. cbn [snd].
  assert (Hidx : forall a, a ∈ index (self w) -> heap w' !! a = heap w !! a).
  { intros a Ha. apply Hh. eapply Forall_forall in Hlive; eauto. }
  split; [done|]. split; [done|].
  apply find_nn_idx_agree; [done|]. rewrite Hs. done.
Qed.

Lemma New_wf (k0 dim0 : Z) (bs : list nat) (pref : string) (inst : bool)
    (dev : string) (h : list IndexFlatL2) (w : world) :
  New k0 dim0 bs pref inst dev h = inr w -> wf_world w.
Proof. intros Hnew. by apply New_inv in Hnew as (_ & _ & _ & _ & _ & _ & Hwf & _). Qed.

(** ** Further properties: construction and device placement *)

Lemma prefix_append (p s : string) :
  String.prefix p s = true <-> exists b, s = String.append p b.
Proof.
  revert s. induction p as [|c p IH]; intros s.
  - destruct s; simpl; split; eauto.
  - destruct s as [|c' s]; simpl.
    + split; [discriminate|]. intros (b & Hb).
      change (String.append (String c p) b) with (String c (String.append p b)) in Hb.
      discriminate Hb.
    + destruct (Ascii.ascii_dec c c') as [->|Hne].
      * rewrite IH.
        change (fun b => String c' s = String.append (String c' p) b)
          with (fun b => String c' s = String c' (String.append p b)).
        split; intros (b & Hb); exists b; congruence.
      * split; [discriminate|]. intros (b & Hb).
        change (String.append (String c p) b) with (String c (String.append p b)) in Hb.
        congruence.
Qed.

Lemma contains_unfold (p s : string) :
  contains p s = String.prefix p s ||
                 match s with
                 | EmptyString => false
                 | String _ s' => contains p s'
                 end.
Proof. by destruct s. Qed.

Lemma contains_substring (p s : string) :
  contains p s = true <-> substring p s.
Proof.
  unfold substring. split.
  - induction s as [|c s IH]; rewrite contains_unfold, orb_true_iff.
    + intros [Hp|Hc]; [|discriminate].
      apply prefix_append in Hp as (b & Hb). by exists EmptyString, b.
    + intros [Hp|Hc].
      * apply prefix_append in Hp as (b & Hb). by exists EmptyString, b.
      * destruct (IH Hc) as (a & b & ->). by exists (String c a), b.
  - intros (a & b & ->). induction a as [|c a IH].
    + rewrite contains_unfold, orb_true_iff. left.
      apply prefix_append. by exists b.
    + change (String.append (String c a) (String.append p b))
        with (String c (String.append a (String.append p b))).
      rewrite contains_unfold, orb_true_iff. by right.
Qed.




Lemma realloc_heap (g : bool) (o : option unit) (w : world) :
  heap (realloc g o w) =
    heap w ++ replicate (numel (batch_shape (self w))) (MkIndex (dim (self w)) g []) /\
  index (self (realloc g o w)) = seq (length (heap w)) (numel (batch_shape (self w))) /\
  res (self (realloc g o w)) = o /\
  same_config (self w) (self (realloc g o w)) /\
  train_n (self (realloc g o w)) = train_n (self w).
Proof. by repeat split. Qed.

Lemma to_cases (device : string) (w : world) :
  to device w =
    if String.eqb device "cpu" then cpu w
    else if contains "cuda" device then cuda w
    else (inl ValueError, w).
Proof. unfold to. by destruct (String.eqb device "cpu"), (contains "cuda" device). Qed.

(** X2.  A constructed instance holds the [k], [dim] and [batch_shape] it
    was given and no [train_n]; its backend is faiss exactly when faiss was
    preferred and could be imported.  The index objects that were alive
    before are untouched; every object created is empty and has dimension
    [dim].  With faiss, [self.index] refers to one distinct new object per
    batch slot, all on the accelerator unless the device is ["cpu"], and
    [self.res] is set exactly in that case; with scikit-learn no object is
    created. *)
Theorem X2_constructed_state (k0 dim0 : Z) (bs : list nat) (pref : string)
    (inst : bool) (dev : string) (h : list IndexFlatL2) (w : world) :
  New k0 dim0 bs pref inst dev h = inr w ->
  k (self w) = k0 /\ dim (self w) = dim0 /\ batch_shape (self w) = bs /\
  train_n (self w) = None /\
  nnlib (self w) = (if String.eqb pref "faiss" && inst then faiss else sklearn) /\
  (exists fresh, heap w = h ++ fresh /\
                 Forall (fun ix => xb ix = [] /\ ix_d ix = dim0) fresh) /\
  (nnlib (self w) = faiss ->
   length (index (self w)) = numel bs /\ NoDup (index (self w)) /\
   Forall (fun a => length h <= a /\
                    exists ix, heap w !! a = Some ix /\
                               ix_gpu ix = negb (String.eqb dev "cpu"))
          (index (self w)) /\
   res (self w) = if String.eqb dev "cpu" then None else Some tt) /\
  (nnlib (self w) = sklearn -> heap w = h).
Proof.
  unfold New, __init__. unfold bind at 1. unfold assert.
  destruct (Z.ltb_spec 0 k0) as [Hk|Hk]; [|discriminate]. unfold ret at 1.
  unfold bind at 1. unfold put_self at 1. cbn [heap self]. unfold bind at 1.
  destruct (String.eqb pref "faiss"); cbn [andb]; [destruct inst|].
  - unfold bind at 1. unfold set_nnlib at 1, bind, get_self, put_self.
    cbn [heap self k dim batch_shape train_n nnlib res index].
    fold (@bind coord). rewrite cpu_run. cbn [self nnlib].
    set (w1 := realloc false None _). rewrite to_cases, cpu_run, cuda_run.
    assert (Hw1 : nnlib (self w1) = faiss) by done. rewrite Hw1.
    destruct (String.eqb dev "cpu") eqn:Hd;
      [|destruct (contains "cuda" dev); [|discriminate]];
      intros [= <-]; (split_and!; try done).
    all: try (eexists; split;
      [cbn [heap realloc w1 self batch_shape dim]; rewrite <- app_assoc; reflexivity
      |apply Forall_app; split; apply Forall_forall; intros ix Hix;
       by apply elem_of_replicate_inv in Hix as ->]).
    all: intros _; split_and!;
      [cbn; by rewrite length_seq | apply NoDup_seq | | done].
    all: apply Forall_forall; intros a Ha; cbn in Ha; apply elem_of_seq in Ha;
      rewrite length_app, length_replicate in Ha; (split; [lia|]);
      eexists; (split;
        [cbn [heap realloc]; rewrite lookup_app_r
           by (cbn [heap w1 realloc self batch_shape];
               rewrite length_app, length_replicate; unfold numel; lia);
         apply lookup_replicate; (split; [reflexivity|]);
         cbn [heap w1 realloc self batch_shape];
         rewrite length_app, length_replicate; unfold numel; lia
        |reflexivity]).
  - unfold set_nnlib, bind, get_self, put_self.
    cbn [heap self k dim batch_shape train_n nnlib res index].
    rewrite to_cases, cpu_run, cuda_run. cbn [self nnlib].
    destruct (String.eqb dev "cpu"); [|destruct (contains "cuda" dev)];
      intros [= <-]; split_and!; try done;
      exists []; by rewrite app_nil_r.
  - unfold set_nnlib, bind, get_self, put_self.
    cbn [heap self k dim batch_shape train_n nnlib res index].
    rewrite to_cases, cpu_run, cuda_run. cbn [self nnlib].
    destruct (String.eqb dev "cpu"); [|destruct (contains "cuda" dev)];
      intros [= <-]; split_and!; try done;
      exists []; by rewrite app_nil_r.
Qed.

(** X3.  On an instance, [to] raises [ValueError] exactly when the device is
    neither ["cpu"] nor a string in which ["cuda"] occurs, and then changes
    nothing.  Whatever it returns, it keeps [k], [dim], [batch_shape], the
    backend and [train_n], and it leaves the index objects that exist as they
    are: it only creates objects.  With scikit-learn it changes nothing at
    all. *)
Theorem X3_device_placement_keeps_configuration (device : string) (w w' : world)
    (r : exn + unit) :
  to device w = (r, w') ->
  (r = inl ValueError <-> device <> "cpu" /\ ~ substring "cuda" device) /\
  (r = inl ValueError -> w' = w) /\
  same_config (self w) (self w') /\ train_n (self w') = train_n (self w) /\
  (exists fresh, heap w' = heap w ++ fresh) /\
  (nnlib (self w) = sklearn -> w' = w).
Proof.
  rewrite to_cases, cpu_run, cuda_run.
  destruct (String.eqb_spec device "cpu") as [Hd|Hd].
  - destruct (nnlib (self w)) eqn:Hlib; intros [= <- <-]; split_and!; try done.
    + split; [discriminate|]. by intros [? _].
    + eexists. apply realloc_heap.
    + split; [discriminate|]. by intros [? _].
    + exists []. by rewrite app_nil_r.
  - destruct (contains "cuda" device) eqn:Hc.
    + apply contains_substring in Hc.
      destruct (nnlib (self w)) eqn:Hlib; intros [= <- <-]; split_and!; try done.
      * split; [discriminate|]. by intros [_ ?].
      * eexists. apply realloc_heap.
      * split; [discriminate|]. by intros [_ ?].
      * exists []. by rewrite app_nil_r.
    + intros [= <- <-]. split_and!; try done.
      * split; [|done]. intros _. split; [done|].
        intros Hs. apply contains_substring in Hs. congruence.
      * exists []. by rewrite app_nil_r.
Qed.

(** ** Further properties: indexing and querying *)

Lemma find_nn_idx_exact (x : tensor coord) (kq : option Z) (w : world) (kk : Z)
    (n T d : nat) :
  nnlib (self w) = faiss -> wf_world w ->
  train_n (self w) = Some n ->
  (kq = None /\ kk = k (self w)) \/ (kq = Some kk /\ (0 < kk)%Z) ->
  (kk <= Z.of_nat n)%Z ->
  shape x = batch_shape (self w) ++ [T; d] -> dim (self w) = Z.of_nat d ->
  0 < T -> 0 < d ->
  exists xv,
    view3 x T d = inr xv /\ length xv = numel (batch_shape (self w)) /\
    Forall (fun slot : list point => length slot = T) xv /\
    find_nn_idx x kq w =
    (inr (IdxTensor (batch_shape (self w) ++ [T; Z.to_nat kk])
                    (map (searched w xv (Z.to_nat kk))
                         (seq 0 (numel (batch_shape (self w)))))), w).
Proof.
  intros Hlib Hwf Htr Hkq Hkn Hsh Hdim HT Hd.
  destruct (Hwf Hlib) as (Hlen & Hnd & Hlive).
  destruct (view3_ok x _ T d Hsh HT Hd) as (xv & Hview & Hxv & Hslots).
  exists xv. split_and!; try done.
  unfold find_nn_idx. mstep. rewrite Htr. mstep.
  assert (Hk' : (match kq with
                 | None => ret (k (self w))
                 | Some k' => assert (0 <? k')%Z query_k_positive;;; ret k'
                 end) w = (inr kk, w)).
  { destruct Hkq as [[-> ->]|[-> Hpos]]; [done|].
    unfold bind, assert. by destruct (Z.ltb_spec 0 kk); [|lia]. }
  rewrite (bind_inr _ _ _ _ _ Hk').
  destruct (Z.leb_spec kk (Z.of_nat n)); [|lia]. mstep.
  rewrite (bind_inr _ _ _ _ _ (check_shape_ok x w T d Hsh Hdim)).
  rewrite Hlib, Hsh, neg2_app. mstep.
  rewrite Hdim, Nat2Z.id, Hview. mstep.
  erewrite bind_inr; [reflexivity|].
  apply mapM_pure. intros i Hi. apply elem_of_seq in Hi.
  destruct (lookup_lt_is_Some_2 (index (self w)) i) as [a Ha]; [lia|].
  destruct (lookup_lt_is_Some_2 xv i) as [qs Hqs]; [lia|].
  assert (Hlt : a < length (heap w)) by (eapply Forall_lookup_1 in Hlive; eauto).
  destruct (lookup_lt_is_Some_2 (heap w) a Hlt) as [ix Hix].
  rewrite (searched_eq _ _ _ _ _ _ _ Ha Hqs Hix).
  unfold item. rewrite Ha, Hqs. do 2 mstep.
  by apply index_search_run.
Qed.

Lemma index_then_query (train test : tensor coord) (kq : option Z) (w : world)
    (kk : Z) (N T d : nat) :
  nnlib (self w) = faiss -> wf_world w ->
  shape train = batch_shape (self w) ++ [N; d] ->
  shape test = batch_shape (self w) ++ [T; d] ->
  dim (self w) = Z.of_nat d -> 0 < d -> 0 < T ->
  (kq = None /\ kk = k (self w)) \/ (kq = Some kk /\ (0 < kk)%Z) ->
  (0 < kk <= Z.of_nat N)%Z ->
  exists w1 out,
    set_nn_idx train w = (inr tt, w1) /\
    find_nn_idx test kq w1 = (inr out, w1) /\
    forall i j, i < numel (batch_shape (self w)) -> j < T ->
      exists slot row,
        islots out !! i = Some slot /\ slot !! j = Some row /\
        nearest_among (slot_points train N d i)
                      (nth j (slot_points test T d i) []) N (Z.to_nat kk) row.
Proof.
  intros Hlib Hwf Htrain Htest Hdim Hd HT Hkq HkN.
  destruct (set_nn_idx_run train w N d Hlib Hwf Htrain Hdim)
    as (w1 & Hset & Hs & Hlen & _ & Hcontent); [lia|done|].
  destruct (Hwf Hlib) as (Hidx & Hnd & Hlive).
  assert (Hwf1 : wf_world w1).
  { intros _. rewrite Hs. cbn [index batch_shape]. by rewrite Hlen. }
  destruct (find_nn_idx_exact test kq w1 kk N T d)
    as (xv & Hview & Hxv & Hslots & Hfind); try (rewrite Hs; cbn; done); try done; [lia|].
  exists w1. eexists. split; [done|]. split; [exact Hfind|]. cbn [islots].
  rewrite Hs. cbn [batch_shape]. intros i j Hi Hj.
  destruct (lookup_lt_is_Some_2 (index (self w)) i) as [a Ha]; [lia|].
  destruct (Hcontent i a Ha) as (ix & Hix & Hxb).
  assert (Hxv' : length xv = numel (batch_shape (self w))) by by rewrite Hxv, Hs.
  destruct (lookup_lt_is_Some_2 xv i) as [qs Hqs]; [lia|].
  assert (Hqlen : length qs = T) by (eapply Forall_lookup_1 in Hslots; eauto).
  destruct (lookup_lt_is_Some_2 qs j) as [q Hq]; [lia|].
  assert (Ha1 : index (self w1) !! i = Some a) by by rewrite Hs.
  exists (searched w1 xv (Z.to_nat kk) i), (search1 (xb ix) (Z.to_nat kk) q).
  split; [|split].
  - by rewrite list_lookup_fmap, lookup_seq_lt.
  - rewrite (searched_eq _ _ _ _ _ _ _ Ha1 Hqs Hix).
    by rewrite list_lookup_fmap, Hq.
  - assert (Hpts : slot_points test T d i = qs).
    { unfold slot_points. by rewrite Hview, Hqs. }
    rewrite Hpts, (nth_lookup_Some _ _ _ _ Hq), Hxb.
    assert (HlenN : length (slot_points train N d i) = N).
    { apply (slot_points_length train _ N d i Htrain); [lia|done|done]. }
    rewrite <- HlenN at 2. apply search1_nearest. lia.
Qed.

(** X4.  With faiss, [set_nn_idx] on an array of shape
    [( *batch_shape, N, dim)] with [N, dim >= 1] returns and sets [train_n]
    to [N]; afterwards the index object of every batch slot stores exactly
    the [N] points of that slot, in order, whatever it stored before (a
    second call replaces the points of the first).  Nothing else changes:
    the other attributes, the objects that [self.index] refers to and every
    other index object are as before. *)
Theorem X4_set_index_stores_slot_points (x : tensor coord) (w : world) (N d : nat) :
  nnlib (self w) = faiss -> wf_world w ->
  shape x = batch_shape (self w) ++ [N; d] -> dim (self w) = Z.of_nat d ->
  0 < N -> 0 < d ->
  exists w',
    set_nn_idx x w = (inr tt, w') /\
    train_n (self w') = Some N /\
    same_config (self w) (self w') /\
    res (self w') = res (self w) /\ index (self w') = index (self w) /\
    length (heap w') = length (heap w) /\
    (forall i a, index (self w) !! i = Some a ->
       exists ix, heap w' !! a = Some ix /\ xb ix = slot_points x N d i /\
                  ntotal ix = N) /\
    (forall a, a ∉ index (self w) -> heap w' !! a = heap w !! a).
Proof.
  intros Hlib Hwf Hsh Hdim HN Hd.
  destruct (set_nn_idx_run x w N d Hlib Hwf Hsh Hdim HN Hd)
    as (w' & Hrun & Hs & Hlen & Hother & Hset).
  destruct (Hwf Hlib) as (Hidx & _).
  exists w'. rewrite Hs. split_and!; try done.
  intros i a Ha. destruct (Hset i a Ha) as (ix & E1 & E2).
  exists ix. split_and!; try done. unfold ntotal. rewrite E2.
  apply (slot_points_length x _ N d i Hsh HN Hd).
  apply lookup_lt_Some in Ha. lia.
Qed.

(** X5.  With faiss, in any state of the utility (never indexed, indexed
    with other points, or after a device switch): [set_nn_idx] on [N]
    training points followed by [find_nn_idx] on [T >= 1] test points with
    [0 < k <= N] returns, for every batch slot [i] and every test point [j]
    of that slot, the [k] nearest of the [N] training points of slot [i]:
    [k] distinct labels in [[0, N)], none farther from the test point than
    a training point of the slot that is left out.  Points of other slots
    play no part. *)
Theorem X5_query_returns_nearest_of_own_slot (train test : tensor coord)
    (kq : option Z) (w : world) (kk : Z) (N T d : nat) :
  nnlib (self w) = faiss -> wf_world w ->
  shape train = batch_shape (self w) ++ [N; d] ->
  shape test = batch_shape (self w) ++ [T; d] ->
  dim (self w) = Z.of_nat d -> 0 < d -> 0 < T ->
  (kq = None /\ kk = k (self w)) \/ (kq = Some kk /\ (0 < kk)%Z) ->
  (0 < kk <= Z.of_nat N)%Z ->
  exists w1 out,
    set_nn_idx train w = (inr tt, w1) /\
    find_nn_idx test kq w1 = (inr out, w1) /\
    well_shaped out (batch_shape (self w)) T (Z.to_nat kk) /\
    forall i j, i < numel (batch_shape (self w)) -> j < T ->
      exists slot row,
        islots out !! i = Some slot /\ slot !! j = Some row /\
        nearest_among (slot_points train N d i)
                      (nth j (slot_points test T d i) []) N (Z.to_nat kk) row.
Proof.
  intros Hlib Hwf Htrain Htest Hdim Hd HT Hkq HkN.
  destruct (index_then_query train test kq w kk N T d)
    as (w1 & out & Hset & Hfind & Hrows); try done.
  exists w1, out. split; [done|]. split; [done|]. split; [|done].
  destruct (set_nn_idx_populated train w N d Hlib Hwf Htrain Hdim)
    as (w1' & Hset' & Hs & Hwf1 & Hpop); [lia|done|].
  rewrite Hset in Hset'. injection Hset' as <-.
  destruct (find_nn_idx_run test kq w1 kk N N T d)
    as (out' & Hfind' & Hshape & _); try (rewrite Hs; cbn; done); try done; [lia|].
  rewrite Hfind in Hfind'. injection Hfind' as <-.
  by rewrite Hs in Hshape.
Qed.

(** X6.  The only upper bound that [find_nn_idx] puts on a supplied [k] is
    [train_n]: with faiss, a [k] larger than the [k] of the constructor, but
    at most [train_n], is accepted and gives an array with that many
    columns, all values in [[0, train_n)]. *)
Theorem X6_query_accepts_k_above_configured (x : tensor coord) (w : world)
    (kk : Z) (n T d : nat) :
  nnlib (self w) = faiss -> wf_world w -> populated w n ->
  train_n (self w) = Some n ->
  (0 < kk)%Z -> (k (self w) < kk <= Z.of_nat n)%Z ->
  shape x = batch_shape (self w) ++ [T; d] -> dim (self w) = Z.of_nat d ->
  0 < T -> 0 < d ->
  exists out,
    find_nn_idx x (Some kk) w = (inr out, w) /\
    well_shaped out (batch_shape (self w)) T (Z.to_nat kk) /\
    Forall (fun v => (0 <= v < Z.of_nat n)%Z) (values out).
Proof.
  intros Hlib Hwf Hpop Htr Hpos Hk Hsh Hdim HT Hd.
  destruct (find_nn_idx_run x (Some kk) w kk n n T d)
    as (out & Hfind & Hshape & Hrows); try done; [by right|lia|].
  exists out. split_and!; try done.
  apply values_Forall. eapply Forall_impl; [exact Hrows|]. intros slot Hslot.
  eapply Forall_impl; [exact Hslot|]. intros row (pts & q & Hlen & ->).
  apply Forall_forall. intros v Hv.
  destruct (search1_nearest pts (Z.to_nat kk) q) as (_ & _ & Hrange & _); [lia|].
  rewrite Hlen in Hrange. by apply Hrange.
Qed.

(** X7.  After a device switch the index objects are empty, and calling
    [set_nn_idx] again repopulates them: with faiss, [to] followed by
    [set_nn_idx] on [N] training points and [find_nn_idx] on [T >= 1] test
    points returns the [k] nearest training points of each slot, as before
    the switch. *)
Theorem X7_reindex_after_device_switch (device : string) (train test : tensor coord)
    (kq : option Z) (w w' : world) (kk : Z) (N T d : nat) :
  nnlib (self w) = faiss ->
  to device w = (inr tt, w') ->
  shape train = batch_shape (self w) ++ [N; d] ->
  shape test = batch_shape (self w) ++ [T; d] ->
  dim (self w) = Z.of_nat d -> 0 < d -> 0 < T ->
  (kq = None /\ kk = k (self w)) \/ (kq = Some kk /\ (0 < kk)%Z) ->
  (0 < kk <= Z.of_nat N)%Z ->
  populated w' 0 /\
  exists w1 out,
    set_nn_idx train w' = (inr tt, w1) /\
    find_nn_idx test kq w1 = (inr out, w1) /\
    forall i j, i < numel (batch_shape (self w)) -> j < T ->
      exists slot row,
        islots out !! i = Some slot /\ slot !! j = Some row /\
        nearest_among (slot_points train N d i)
                      (nth j (slot_points test T d i) []) N (Z.to_nat kk) row.
Proof.
  intros Hlib Hto Htrain Htest Hdim Hd HT Hkq HkN.
  apply to_run in Hto as [[Hc _]|[_ [[Hc _]|[_ (g & o & ->)]]]];
    [discriminate Hc|congruence|].
  destruct (realloc_wf g o w) as [Hwf Hpop]. split; [done|].
  by apply (index_then_query train test kq (realloc g o w) kk N T d).
Qed.

(** ** Further properties: the scikit-learn branch and edge cases *)

Lemma bind_inr_inv {A B} (m : M A) (f : A -> M B) (w w' : world) (b : B) :
  bind m f w = (inr b, w') ->
  exists a w1, m w = (inr a, w1) /\ f a w1 = (inr b, w').
Proof.
  unfold bind. destruct (m w) as [[e|a] w1]; [discriminate|]. eauto.
Qed.

Ltac minv H :=
  let a := fresh "v" in
  let u := fresh "u" in
  let E := fresh "E" in
  apply bind_inr_inv in H as (a & u & E & H).

Lemma find_nn_idx_sklearn (x : tensor coord) (kq : option Z) (w : world) :
  nnlib (self w) = sklearn -> exists e, find_nn_idx x kq w = (inl e, w).
Proof.
  intros Hlib. assert (Hro := read_only_find_nn_idx x kq w).
  destruct (find_nn_idx x kq w) as [[e|out] w'] eqn:E; simpl in Hro; subst w'.
  - by exists e.
  - exfalso. unfold find_nn_idx in E. minv E.
    injection E0 as <- <-. do 4 minv E. rewrite Hlib in E. discriminate E.
Qed.

Lemma build_sequential_sklearn (x : tensor coord) (w : world) :
  nnlib (self w) = sklearn -> exists e, build_sequential_nn_idx x w = (inl e, w).
Proof.
  intros Hlib. destruct (build_sequential_nn_idx x w) as [[e|out] w'] eqn:E.
  - destruct (build_sequential_frame x w w' _ E) as [Hs _].
    exists e. f_equal. revert E. unfold build_sequential_nn_idx.
    unfold bind at 1. assert (Hro := read_only_check_shape x w).
    destruct (_expand_and_check_shape x w) as [[e1|x'] w0]; simpl in Hro; subst w0;
      [by intros [= _ <-]|].
    unfold bind at 1. unfold size_at.
    destruct (neg2 (shape x')) as [N|]; [|by intros [= _ <-]]. unfold ret at 1.
    mstep. unfold bind at 1. unfold assert.
    destruct (k (self w) <? Z.of_nat N)%Z; [|by intros [= _ <-]]. unfold ret at 1.
    rewrite Hlib. by intros [= _ <-].
  - exfalso. unfold build_sequential_nn_idx in E. do 2 minv E. minv E.
    injection E2 as <- <-. minv E.
    assert (u1 = u0).
    { revert E2. unfold assert. by destruct (_ <? _)%Z; intros [= _ <-]. }
    subst u1.
    assert (Hro := read_only_check_shape x w). rewrite E0 in Hro. simpl in Hro.
    subst u. revert E1. unfold size_at. destruct (neg2 _); [|discriminate].
    intros [= _ <-]. rewrite Hlib in E. discriminate E.
Qed.

(** X8.  With the scikit-learn backend no method that takes points ever
    returns: [find_nn_idx] and [build_sequential_nn_idx] raise and leave the
    state as it is, and [set_nn_idx] raises too; on a well-shaped array it
    raises [TypeError] after it has set [train_n], so that failure does
    change the state. *)
Theorem X8_fallback_methods_always_raise (w : world) (x : tensor coord) :
  nnlib (self w) = sklearn ->
  (forall kq, exists e, find_nn_idx x kq w = (inl e, w)) /\
  (exists e, build_sequential_nn_idx x w = (inl e, w)) /\
  (exists e w', set_nn_idx x w = (inl e, w')) /\
  (forall N d, shape x = batch_shape (self w) ++ [N; d] ->
               dim (self w) = Z.of_nat d ->
     set_nn_idx x w =
     (inl TypeError,
      MkWorld (heap w)
              (MkNNUtil (k (self w)) (dim (self w)) (batch_shape (self w)) (Some N)
                        (nnlib (self w)) (res (self w)) (index (self w))))).
Proof.
  intros Hlib. split_and!.
  - intros kq. by apply find_nn_idx_sklearn.
  - by apply build_sequential_sklearn.
  - destruct (set_nn_idx x w) as [[e|[]] w'] eqn:E; [eauto|].
    exfalso. unfold set_nn_idx in E. do 2 minv E. minv E.
    revert E2. unfold set_train_n, bind, get_self, put_self. intros [= _ <-].
    minv E. injection E2 as <- <-. cbn [self nnlib] in E.
    assert (Hro := read_only_check_shape x w). rewrite E0 in Hro. simpl in Hro.
    subst u. revert E1. unfold size_at. destruct (neg2 _); [|discriminate].
    intros [= _ <-]. rewrite Hlib in E. discriminate E.
  - intros N d Hsh Hdim. unfold set_nn_idx.
    rewrite (bind_inr _ _ _ _ _ (check_shape_ok x w N d Hsh Hdim)).
    rewrite Hsh, neg2_app. mstep.
    unfold set_train_n, bind, get_self, put_self. cbn [self nnlib heap].
    by rewrite Hlib.
Qed.

(** X9.  With faiss, [set_nn_idx] on an array without points (shape
    [( *batch_shape, 0, dim)]) raises the error of [view], but only after it
    has set [train_n] to 0; the index objects are untouched.  From then on
    every [find_nn_idx] fails with the range error, whatever [k] and the
    test points are. *)
Theorem X9_empty_training_set (x : tensor coord) (w : world) (d : nat) :
  nnlib (self w) = faiss -> (0 < k (self w))%Z ->
  shape x = batch_shape (self w) ++ [0; d] -> dim (self w) = Z.of_nat d ->
  exists w',
    set_nn_idx x w = (inl RuntimeError, w') /\
    heap w' = heap w /\ train_n (self w') = Some 0 /\
    same_config (self w) (self w') /\
    forall y kq, exists a,
      find_nn_idx y kq w' = (inl (AssertionError a), w') /\
      classify (AssertionError a) = Some RangeError.
Proof.
  intros Hlib Hk Hsh Hdim. eexists. split.
  - unfold set_nn_idx.
    rewrite (bind_inr _ _ _ _ _ (check_shape_ok x w 0 d Hsh Hdim)).
    rewrite Hsh, neg2_app. mstep.
    unfold set_train_n at 1. unfold bind at 1. unfold bind at 1.
    unfold get_self at 1, put_self at 1. unfold bind at 1. unfold get_self at 1.
    cbn [self nnlib heap dim]. rewrite Hlib.
    rewrite (view3_empty x 0 _ eq_refl). reflexivity.
  - cbn [heap self train_n]. split_and!; try done.
    intros y kq. unfold find_nn_idx. mstep. cbn [self train_n k]. mstep.
    destruct kq as [k'|].
    + unfold bind, assert, ret, raise.
      destruct (Z.ltb_spec 0 k'); [|by eexists].
      destruct (Z.leb_spec k' (Z.of_nat 0)); [lia|by eexists].
    + unfold bind, assert, ret, raise.
      destruct (Z.leb_spec (k (self w)) (Z.of_nat 0)); [lia|by eexists].
Qed.

Lemma promoted_shape (x : tensor coord) :
  shape (if length (shape x) =? 1 then unsqueeze_last x else x) = promoted (shape x).
Proof. unfold promoted. by destruct (length (shape x) =? 1). Qed.

Lemma promoted_not_rank1 (sh : list nat) : length (promoted sh) <> 1.
Proof.
  unfold promoted. destruct (Nat.eqb_spec (length sh) 1) as [E|E]; [|done].
  rewrite length_app. simpl. lia.
Qed.

Lemma shape_split (sh bs : list nat) (d : nat) :
  length sh <> 1 -> all_but_last2 sh = bs -> neg1 sh = Some d ->
  exists n, sh = bs ++ [n; d].
Proof.
  intros Hlen Hall Hlast. unfold all_but_last2 in *.
  destruct (decide (length sh = 0)) as [E0|E0].
  { apply nil_length_inv in E0 as ->. discriminate Hlast. }
  assert (Hsplit := take_drop (length sh - 2) sh).
  assert (Hd : length (drop (length sh - 2) sh) = 2) by (rewrite length_drop; lia).
  destruct (drop (length sh - 2) sh) as [|n [|d' [|? ?]]]; try discriminate Hd.
  rewrite Hall in Hsplit. exists n. rewrite <- Hsplit in Hlast.
  rewrite (neg1_app bs n d') in Hlast. injection Hlast as <-. done.
Qed.

(** X10.  [_expand_and_check_shape] never changes the state.  It accepts an
    array exactly when its shape, after a rank-1 shape [(N)] has been
    promoted to [(N, 1)], is [batch_shape] followed by a number of points
    and by [dim]; it then returns the array with that shape and the same
    elements.  A 0-dimensional array is not rejected by an assertion when
    [batch_shape] is empty: reading its last size raises [IndexError]. *)
Theorem X10_accepted_shapes (x : tensor coord) (w : world) :
  ((exists y, _expand_and_check_shape x w = (inr y, w)) <->
   (exists n d, promoted (shape x) = batch_shape (self w) ++ [n; d] /\
                Z.of_nat d = dim (self w))) /\
  (forall y w', _expand_and_check_shape x w = (inr y, w') ->
     w' = w /\ shape y = promoted (shape x) /\ data y = data x) /\
  (shape x = [] -> batch_shape (self w) = [] ->
   _expand_and_check_shape x w = (inl IndexError, w)).
Proof.
  split_and!.
  - split.
    + intros (y & Hy). apply check_shape_inv in Hy as (_ & Hsh & _ & Hall & d & Hd & Hdim).
      rewrite Hsh in Hall, Hd.
      destruct (shape_split _ _ d (promoted_not_rank1 (shape x)) Hall Hd) as (n & Hn).
      eauto.
    + intros (n & d & Hsh & Hdim). eexists.
      unfold _expand_and_check_shape. rewrite promoted_shape, Hsh.
      rewrite all_but_last2_app, neg1_app.
      unfold bind, get_self, assert, size_at, ret.
      rewrite bool_decide_eq_true_2 by done.
      rewrite Hdim, Z.eqb_refl. reflexivity.
  - intros y w' Hy. apply check_shape_inv in Hy as (-> & Hsh & Hdata & _). done.
  - intros Hsh Hbs. unfold _expand_and_check_shape. rewrite Hsh. cbn.
    unfold bind, get_self, assert, size_at, ret, raise. rewrite Hsh, Hbs. cbn.
    reflexivity.
Qed.

(** X11.  With faiss, the first row that [build_sequential_nn_idx] returns
    for a slot, the row of point [k], lists exactly the points [0..k-1], in
    some order: with only [k] points to choose from, every one is a
    neighbour. *)
Theorem X11_first_sequential_row_is_the_first_k_points (x : tensor coord)
    (w : world) (N d : nat) :
  nnlib (self w) = faiss -> (0 < k (self w))%Z ->
  shape x = batch_shape (self w) ++ [N; d] -> dim (self w) = Z.of_nat d ->
  0 < d -> (k (self w) < Z.of_nat N)%Z ->
  exists out w',
    build_sequential_nn_idx x w = (inr out, w') /\
    forall bi, bi < numel (batch_shape (self w)) ->
      exists slot row,
        islots out !! bi = Some slot /\ slot !! 0 = Some row /\
        row ≡ₚ map Z.of_nat (seq 0 (Z.to_nat (k (self w)))).
Proof.
  intros Hlib Hk Hsh Hdim Hd HkN.
  destruct (build_sequential_run x w N d Hlib Hk Hsh Hdim HkN Hd)
    as (w' & Hrun & _).
  eexists _, w'. split; [exact Hrun|]. cbn [islots].
  intros bi Hbi. set (kn := Z.to_nat (k (self w))).
  destruct (sequential_slots_lookup x _ N d kn bi kn Hbi) as (slot & E1 & E2);
    [lia|].
  rewrite Nat.sub_diag in E2.
  exists slot. eexists. split; [exact E1|]. split; [exact E2|].
  set (xs := map (map to_float32) (slot_points x N d bi)).
  assert (Hxs : length xs = N).
  { unfold xs. rewrite length_map.
    apply (slot_points_length x _ N d bi Hsh); [lia|done|done]. }
  assert (Htake : length (take kn xs) = kn) by (rewrite length_take; lia).
  unfold seq_row. rewrite search1_full by lia.
  rewrite take_ge.
  - apply fmap_Permutation. rewrite knn_order_perm. by rewrite Htake.
  - rewrite (Permutation_length (knn_order_perm _ _)), length_seq. lia.
Qed.

(** ** Further properties: what the methods keep *)

Lemma steady_read_only {A} (L : list addr) (m : M A) : read_only m -> steady L m.
Proof.
  intros Hm w. specialize (Hm w). destruct (m w) as [r w']. simpl in *. subst w'.
  by split_and!.
Qed.

Lemma steady_bind {A B} (L : list addr) (m : M A) (f : A -> M B) :
  steady L m -> (forall v, steady L (f v)) -> steady L (bind m f).
Proof.
  intros Hm Hf w. unfold bind. destruct (Hm w) as (H1 & H2 & H3).
  destruct (m w) as [[e|v] w1]; simpl in *; [done|].
  destruct (Hf v w1) as (H4 & H5 & H6). split_and!; [congruence|congruence|].
  intros b Hb. by rewrite H6, H3.
Qed.

Lemma steady_store (L : list addr) (a : addr) (ix : IndexFlatL2) :
  a ∈ L -> steady L (store a ix).
Proof.
  intros Ha w. unfold store. cbn [snd heap self]. split_and!; [done| |].
  - apply length_insert.
  - intros b Hb. apply list_lookup_insert_ne. by intros ->.
Qed.

Lemma steady_index_reset (L : list addr) (a : addr) :
  a ∈ L -> steady L (index_reset a).
Proof.
  intros Ha. apply steady_bind; [apply steady_read_only, read_only_deref|].
  intros ix. by apply steady_store.
Qed.

Lemma steady_index_add (L : list addr) (a : addr) (pts : list point) :
  a ∈ L -> steady L (index_add a pts).
Proof.
  intros Ha. apply steady_bind; [apply steady_read_only, read_only_deref|].
  intros ix. by apply steady_store.
Qed.

Lemma steady_mapM {A B} (L : list addr) (f : A -> M B) (l : list A) :
  (forall v, steady L (f v)) -> steady L (mapM f l).
Proof.
  intros Hf. induction l as [|v l IH]; simpl.
  - apply steady_read_only, read_only_ret.
  - apply steady_bind; [apply Hf|]. intros b.
    apply steady_bind; [apply IH|]. intros bs.
    apply steady_read_only, read_only_ret.
Qed.

Lemma steady_bind_item {A B} (L : list addr) (l : list A) (i : nat) (f : A -> M B) :
  (forall a, l !! i = Some a -> steady L (f a)) -> steady L (bind (item l i) f).
Proof.
  intros Hf w. unfold bind, item. destruct (l !! i) as [a|] eqn:Ha; simpl.
  - by apply Hf.
  - by split_and!.
Qed.

Lemma steady_reindex_slot (idx : list addr) (tx : list (list point)) (i : nat) :
  steady idx (a <- item idx i;; index_reset a;;; pts <- item tx i;; index_add a pts).
Proof.
  apply steady_bind_item. intros a Ha.
  assert (Hin : a ∈ idx) by (apply list_elem_of_lookup; eauto).
  apply steady_bind; [by apply steady_index_reset|]. intros _.
  apply steady_bind; [apply steady_read_only, read_only_item|]. intros pts.
  by apply steady_index_add.
Qed.

Lemma set_nn_idx_after_check (x y : tensor coord) (w w' : world) (N : nat)
    (r : exn + unit) :
  _expand_and_check_shape x w = (inr y, w) -> neg2 (shape y) = Some N ->
  set_nn_idx x w = (r, w') ->
  self w' =
    MkNNUtil (k (self w)) (dim (self w)) (batch_shape (self w)) (Some N)
             (nnlib (self w)) (res (self w)) (index (self w)) /\
  length (heap w') = length (heap w) /\
  forall b, b ∉ index (self w) -> heap w' !! b = heap w !! b.
Proof.
  intros Hc HN. unfold set_nn_idx.
  rewrite (bind_inr _ _ _ _ _ Hc), HN. unfold size_at. mstep.
  unfold set_train_n at 1. unfold bind at 1. unfold bind at 1.
  unfold get_self at 1, put_self at 1. unfold bind at 1. unfold get_self at 1.
  cbn [self heap nnlib dim index batch_shape].
  set (s1 := MkNNUtil _ _ _ (Some N) _ _ _).
  set (w1 := MkWorld (heap w) s1).
  destruct (nnlib (self w)); [|by intros [= <- <-]].
  unfold bind at 1. unfold lift at 1.
  destruct (view3 y N (Z.to_nat (dim (self w)))) as [e|tx]; [by intros [= <- <-]|].
  match goal with
  | |- bind (mapM ?f ?l) ?g _ = _ -> _ =>
      assert (Hst : steady (index (self w)) (bind (mapM f l) g))
  end.
  { apply steady_bind; [|intros v; apply steady_read_only, read_only_ret].
    apply steady_mapM. intros i. apply steady_reindex_slot. }
  intros E. specialize (Hst w1). rewrite E in Hst. exact Hst.
Qed.

(** X12.  Whatever it returns, [set_nn_idx] assigns no attribute other than
    [train_n], creates no index object and changes no object other than
    those of [self.index].  When the shape check rejects the input it
    raises that error and has changed nothing; when the check accepts the
    input, [train_n] is afterwards the number of points of the input, even
    if the call then fails. *)
Theorem X12_set_index_frame (x : tensor coord) (w w' : world) (r : exn + unit) :
  set_nn_idx x w = (r, w') ->
  same_config (self w) (self w') /\
  res (self w') = res (self w) /\ index (self w') = index (self w) /\
  length (heap w') = length (heap w) /\
  (forall a, a ∉ index (self w) -> heap w' !! a = heap w !! a) /\
  (forall e, _expand_and_check_shape x w = (inl e, w) -> r = inl e /\ w' = w) /\
  (forall y, _expand_and_check_shape x w = (inr y, w) ->
     exists N, neg2 (shape y) = Some N /\ train_n (self w') = Some N).
Proof.
  intros Hrun.
  assert (Hro := read_only_check_shape x w).
  destruct (_expand_and_check_shape x w) as [[e|y] w0] eqn:Hc; simpl in Hro; subst w0.
  - assert (E : set_nn_idx x w = (inl e, w)).
    { unfold set_nn_idx. by rewrite (bind_inl _ _ _ _ _ Hc). }
    rewrite E in Hrun. injection Hrun as <- <-. split_and!; try done.
    intros e' [= <-]. done.
  - destruct (check_shape_inv _ _ _ _ Hc) as (_ & Hsh & _ & Hall & d & Hd & _).
    destruct (shape_split (shape y) (batch_shape (self w)) d) as (N & HN);
      [rewrite Hsh; apply promoted_not_rank1|done|done|].
    assert (HN2 : neg2 (shape y) = Some N) by (rewrite HN; apply neg2_app).
    destruct (set_nn_idx_after_check x y w w' N r Hc HN2 Hrun) as (Hs & Hl & Hh).
    rewrite Hs. split_and!; try done.
    intros y' [= <-]. eauto.
Qed.

(** X13.  Every state that an instance goes through, by any sequence of
    calls of [cpu], [cuda], [to], [set_nn_idx], [find_nn_idx] and
    [build_sequential_nn_idx], whether they return or raise, has the [k],
    [dim], [batch_shape] and backend chosen at construction; and with faiss
    [self.index] always refers to one distinct live index object per batch
    slot. *)
Theorem X13_configuration_is_fixed_at_construction (k0 dim0 : Z) (bs : list nat)
    (pref : string) (inst : bool) (dev : string) (h : list IndexFlatL2)
    (w0 w : world) :
  New k0 dim0 bs pref inst dev h = inr w0 ->
  reachable_from w0 w ->
  (0 < k (self w))%Z /\ k (self w) = k0 /\ dim (self w) = dim0 /\
  batch_shape (self w) = bs /\
  nnlib (self w) = (if String.eqb pref "faiss" && inst then faiss else sklearn) /\
  wf_world w.
Proof.
  intros Hnew Hreach.
  apply New_inv in Hnew as (Hk & Ek & Edim & Ebs & _ & Elib & Hwf & _).
  assert (Hinv : same_config (self w0) (self w) /\ wf_world w).
  { clear -Hwf Hreach. induction Hreach as [|w _ IH|w _ IH|dev w _ IH|x w _ IH
                                           |x kq w _ IH|x w _ IH].
    - by split.
    - destruct IH as (Hc & Hw). rewrite cpu_run.
      destruct (nnlib (self w)); cbn [snd]; [|done].
      split; [exact Hc|apply realloc_wf].
    - destruct IH as (Hc & Hw). rewrite cuda_run.
      destruct (nnlib (self w)); cbn [snd]; [|done].
      split; [exact Hc|apply realloc_wf].
    - destruct IH as (Hc & Hw).
      destruct (to dev w) as [r w'] eqn:Hto. cbn [snd].
      apply to_run in Hto as [[_ ->]|[_ [[_ ->]|[_ (g & o & ->)]]]]; try done.
      split; [exact Hc|apply realloc_wf].
    - destruct IH as (Hc & Hw).
      destruct (set_nn_idx x w) as [r w'] eqn:Hset. cbn [snd].
      assert (Hf : same_config (self w) (self w') /\
                   index (self w') = index (self w) /\
                   length (heap w') = length (heap w)).
      { assert (Hro := read_only_check_shape x w).
        destruct (_expand_and_check_shape x w) as [[e|y] w1] eqn:Hchk;
          simpl in Hro; subst w1.
        - assert (E : set_nn_idx x w = (inl e, w)).
          { unfold set_nn_idx. by rewrite (bind_inl _ _ _ _ _ Hchk). }
          rewrite E in Hset. by injection Hset as <- <-.
        - destruct (neg2 (shape y)) as [N|] eqn:HN.
          + destruct (set_nn_idx_after_check x y w w' N r Hchk HN Hset) as (Hs & Hl & _).
            by rewrite Hs.
          + revert Hset. unfold set_nn_idx.
            rewrite (bind_inr _ _ _ _ _ Hchk), HN. by intros [= <- <-]. }
      destruct Hf as ((F1 & F2 & F3 & F4) & F5 & F6). split.
      + destruct Hc as (C1 & C2 & C3 & C4). unfold same_config. split_and!; congruence.
      + intros Hlib. rewrite F4 in Hlib. destruct (Hw Hlib) as (W1 & W2 & W3).
        rewrite F5, F3, F6. done.
    - destruct IH as (Hc & Hw). by rewrite read_only_find_nn_idx.
    - destruct IH as (Hc & Hw).
      destruct (build_sequential_nn_idx x w) as [r w'] eqn:Hb. cbn [snd].
      apply build_sequential_frame in Hb as [Hs Hh].
      unfold wf_world. rewrite Hs. split; [done|].
      intros Hlib. destruct (Hw Hlib) as (W1 & W2 & W3). split_and!; try done.
      apply Forall_forall. intros a Ha.
      eapply Forall_forall in W3; [|exact Ha].
      destruct (lookup_lt_is_Some_2 _ _ W3) as [ix Hix].
      rewrite <- (Hh a W3) in Hix. by eapply lookup_lt_Some. }
  destruct Hinv as ((C1 & C2 & C3 & C4) & Hw).
  split_and!; try congruence. done.
Qed.

(** X14.  [set_nn_idx] does not compare the number of points with [k]: with
    faiss it accepts [0 < N < k] training points.  The shortage shows at the
    query: [find_nn_idx] without [k] then fails with the range error,
    while a supplied [k <= N] is answered. *)
Theorem X14_fewer_training_points_than_k (train test : tensor coord) (w : world)
    (N T d : nat) :
  nnlib (self w) = faiss -> wf_world w ->
  shape train = batch_shape (self w) ++ [N; d] ->
  shape test = batch_shape (self w) ++ [T; d] ->
  dim (self w) = Z.of_nat d -> 0 < d -> 0 < T ->
  0 < N -> (Z.of_nat N < k (self w))%Z ->
  exists w1,
    set_nn_idx train w = (inr tt, w1) /\
    (forall y, find_nn_idx y None w1 = (inl (AssertionError k_le_train_n), w1)) /\
    forall kk, (0 < kk <= Z.of_nat N)%Z ->
      exists out, find_nn_idx test (Some kk) w1 = (inr out, w1) /\
                  well_shaped out (batch_shape (self w)) T (Z.to_nat kk).
Proof.
  intros Hlib Hwf Htrain Htest Hdim Hd HT HN Hk.
  destruct (set_nn_idx_populated train w N d Hlib Hwf Htrain Hdim HN Hd)
    as (w1 & Hset & Hs & Hwf1 & Hpop).
  exists w1. split; [done|]. split.
  - intros y. unfold find_nn_idx. mstep. rewrite Hs. cbn [train_n k]. mstep.
    unfold bind, assert, ret, raise.
    by destruct (Z.leb_spec (k (self w)) (Z.of_nat N)); [lia|].
  - intros kk Hkk.
    destruct (find_nn_idx_run test (Some kk) w1 kk N N T d)
      as (out & Hfind & Hshape & _); try (rewrite Hs; cbn; done); try done;
      [right; split; [done|lia]|lia|].
    exists out. split; [done|]. by rewrite Hs in Hshape.
Qed.

(** X15.  [build_sequential_nn_idx] needs no indexed points and indexes
    none: it does not read [train_n] and leaves it as it is, so on an
    instance on which [set_nn_idx] was never called a query made after it
    still fails with the state error. *)
Theorem X15_build_does_not_index (x : tensor coord) (w w' : world)
    (r : exn + idx_tensor) :
  train_n (self w) = None ->
  build_sequential_nn_idx x w = (r, w') ->
  train_n (self w') = None /\
  forall y kq, find_nn_idx y kq w' = (inl (AssertionError initialized), w').
Proof.
  intros Htr Hb. apply build_sequential_frame in Hb as [Hs _].
  assert (Htr' : train_n (self w') = None) by by rewrite Hs.
  split; [done|]. intros y kq. unfold find_nn_idx. mstep. by rewrite Htr'.
Qed.

(** ** Further properties: the sequential structure and queries agree *)

Lemma chunks_take {A} (d n : nat) (l : list A) :
  chunks d n (take (n * d) l) = chunks d n l.
Proof.
  revert l. induction n as [|n IH]; intros l; [done|].
  cbn [chunks]. replace (S n * d) with (d + n * d) by lia.
  rewrite take_take, Nat.min_l by lia. f_equal.
  rewrite <- take_drop_commute. apply IH.
Qed.

Lemma take_chunks {A} (d i n : nat) (l : list A) :
  i <= n -> take i (chunks d n l) = chunks d i l.
Proof.
  revert n l. induction i as [|i IH]; intros n l Hi; [done|].
  destruct n as [|n]; [lia|]. cbn [chunks]. rewrite firstn_cons. f_equal. apply IH. lia.
Qed.

Lemma chunks_lookup {A} (d i n : nat) (l : list A) :
  i < n -> chunks d n l !! i = Some (take d (drop (i * d) l)).
Proof.
  revert n l. induction i as [|i IH]; intros n l Hi; (destruct n as [|n]; [lia|]).
  - done.
  - cbn [chunks]. change ((take d l :: chunks d n (drop d l)) !! S i)
      with (chunks d n (drop d l) !! i).
    rewrite IH by lia. rewrite drop_drop. reflexivity.
Qed.

Lemma chunks_fixed (f : coord -> coord) (d n : nat) (l : list coord) :
  Forall (fun c => f c = c) l -> map (map f) (chunks d n l) = chunks d n l.
Proof.
  revert l. induction n as [|n IH]; intros l Hl; [done|].
  cbn [chunks map]. f_equal.
  - assert (Ht : Forall (fun c => f c = c) (take d l)) by by apply Forall_take.
    induction Ht as [|c t Hc _ IHt]; [done|]. cbn [map]. by rewrite Hc, IHt.
  - apply IH. by apply Forall_drop.
Qed.

Lemma slot_points_single (x : tensor coord) (n d : nat) :
  shape x = [n; d] -> 0 < n -> 0 < d ->
  slot_points x n d 0 = chunks d n (data x).
Proof.
  intros Hsh Hn Hd. unfold slot_points, view3. rewrite Hsh. cbn [numel foldr].
  assert (Hnd : n * d <> 0) by lia.
  destruct (Nat.eqb_spec (n * d) 0) as [|_]; [lia|].
  replace (n * (d * 1)) with (1 * (n * d)) by lia.
  rewrite Nat.Div0.mod_mul, Nat.eqb_refl, Nat.div_mul by done.
  cbn [chunks map lookup list_lookup default]. by rewrite chunks_take.
Qed.

(** X16.  The sequential structure agrees with the queries.  With faiss, no
    batch dimensions and an array [x] of [N] float32 points: the row that
    [build_sequential_nn_idx] returns for a point [i] ([k <= i < N]) is the
    row that [find_nn_idx] returns for that point when the utility has been
    indexed, by [set_nn_idx], with the points [0..i-1] of [x]. *)
Theorem X16_sequential_row_is_query_on_prefix (x : tensor coord) (w : world)
    (N d i : nat) :
  nnlib (self w) = faiss -> wf_world w -> (0 < k (self w))%Z ->
  batch_shape (self w) = [] -> dim (self w) = Z.of_nat d -> 0 < d ->
  shape x = [N; d] -> Forall (fun c => to_float32 c = c) (data x) ->
  Z.to_nat (k (self w)) <= i < N ->
  exists out wb w1 outq slot row,
    build_sequential_nn_idx x w = (inr out, wb) /\
    islots out = [slot] /\ slot !! (i - Z.to_nat (k (self w))) = Some row /\
    set_nn_idx (Tensor [i; d] (take (i * d) (data x))) w = (inr tt, w1) /\
    find_nn_idx (Tensor [1; d] (take d (drop (i * d) (data x)))) None w1
      = (inr outq, w1) /\
    islots outq = [[row]].
Proof.
  intros Hlib Hwf Hk Hbs Hdim Hd Hsh Hfix Hi.
  set (kn := Z.to_nat (k (self w))) in *.
  set (P := chunks d N (data x)).
  assert (HshN : shape x = batch_shape (self w) ++ [N; d]) by by rewrite Hbs.
  destruct (build_sequential_run x w N d Hlib Hk HshN Hdim) as (wb & Hb & _);
    [lia|done|].
  set (pre := Tensor [i; d] (take (i * d) (data x))).
  set (qry := Tensor [1; d] (take d (drop (i * d) (data x)))).
  assert (Hpre : shape pre = batch_shape (self w) ++ [i; d]) by by rewrite Hbs.
  assert (Hqry : shape qry = batch_shape (self w) ++ [1; d]) by by rewrite Hbs.
  destruct (set_nn_idx_run pre w i d Hlib Hwf Hpre Hdim)
    as (w1 & Hset & Hs & Hlen & _ & Hcontent); [lia|done|].
  destruct (Hwf Hlib) as (Hidx & Hnd & Hlive).
  assert (Hwf1 : wf_world w1).
  { intros _. rewrite Hs. cbn [index batch_shape]. by rewrite Hlen. }
  destruct (find_nn_idx_exact qry None w1 (k (self w)) i 1 d)
    as (xv & Hview & Hxv & _ & Hfind); try (rewrite Hs; cbn; done); try done;
    [left; by rewrite Hs|lia|lia|].
  (* the points of the three arrays *)
  assert (HP : map (map to_float32) (slot_points x N d 0) = P).
  { rewrite (slot_points_single x N d Hsh) by lia. by apply chunks_fixed. }
  assert (HpreP : slot_points pre i d 0 = take i P).
  { rewrite (slot_points_single pre i d eq_refl) by lia.
    cbn [data pre]. unfold P. rewrite chunks_take, take_chunks by lia. done. }
  assert (HqryP : slot_points qry 1 d 0 = [nth i P []]).
  { rewrite (slot_points_single qry 1 d eq_refl) by lia.
    cbn [data qry chunks]. unfold P.
    rewrite (nth_lookup_Some _ _ _ _ (chunks_lookup d i N (data x) ltac:(lia))).
    by rewrite take_take, Nat.min_id. }
  (* the single index object *)
  rewrite Hbs in Hidx. cbn in Hidx.
  destruct (lookup_lt_is_Some_2 (index (self w)) 0) as [a Ha]; [lia|].
  destruct (Hcontent 0 a Ha) as (ix & Hix & Hxb).
  assert (Ha1 : index (self w1) !! 0 = Some a) by by rewrite Hs.
  assert (Hqs : xv !! 0 = Some [nth i P []]).
  { revert HqryP. unfold slot_points. rewrite Hview.
    rewrite Hs in Hxv. cbn [batch_shape] in Hxv. rewrite Hbs in Hxv.
    destruct xv as [|q0 [|? ?]]; try discriminate Hxv. cbn. by intros ->. }
  exists (IdxTensor (batch_shape (self w) ++ [N - kn; kn])
                    (sequential_slots x (numel (batch_shape (self w))) N d kn)).
  exists wb, w1. eexists. eexists. exists (seq_row P kn i).
  split; [exact Hb|]. cbn [islots].
  split; [|split; [|split; [exact Hset|split; [exact Hfind|]]]].
  - rewrite Hbs. unfold sequential_slots. cbn [numel foldr seq map]. by rewrite HP.
  - rewrite list_lookup_fmap, lookup_seq_lt by lia. cbn.
    by replace (kn + (i - kn)) with i by lia.
  - cbn [islots]. rewrite Hs. cbn [batch_shape]. rewrite Hbs. cbn [numel foldr seq map].
    rewrite (searched_eq _ _ _ _ _ _ _ Ha1 Hqs Hix). cbn [map].
    unfold seq_row. by rewrite Hxb, HpreP.
Qed.

End NNUtil.

(** ** The properties on concrete inputs *)

Ltac run := vm_compute; reflexivity.

(** C1 on the five points of a line with [k = 2]. *)
Lemma C1_witness :
  exists w0 : world,
    New 2 1 [] "faiss" true "cpu" [] = inr w0 /\
    exists out w',
      build_sequential_nn_idx pts_line w0 = (inr out, w') /\
      forall bi i,
        bi < numel (batch_shape (self w0)) -> Z.to_nat (k (self w0)) <= i < 5 ->
        exists slot row,
          islots out !! bi = Some slot /\
          slot !! (i - Z.to_nat (k (self w0))) = Some row /\
          nearest_among (map (map to_float32) (slot_points pts_line 5 1 bi))
                        (nth i (map (map to_float32) (slot_points pts_line 5 1 bi)) [])
                        i (Z.to_nat (k (self w0))) row.
Proof.
  eexists. split; [run|].
  lazymatch goal with
  | |- context [build_sequential_nn_idx _ ?w] =>
      exact (C1_sequential_neighbors_are_causal (coord := Z) pts_line w 5 1
               eq_refl eq_refl eq_refl eq_refl ltac:(lia) eq_refl)
  end.
Defined.

(** C2 as stated fails for an empty set of test points: with faiss, after
    [set_nn_idx] on two points, a query on an array of shape [(0, 2)] raises
    the error of [view] instead of returning an array of shape [(0, 1)]. *)
Lemma C2_counterexample_no_test_points :
  exists w0 w1 : world,
    New 1 2 [] "faiss" true "cpu" [] = inr w0 /\
    set_nn_idx pts_train w0 = (inr tt, w1) /\
    shape pts_none = batch_shape (self w1) ++ [0; 2] /\
    find_nn_idx pts_none (Some 1%Z) w1 = (inl RuntimeError, w1).
Proof. eexists _, _. repeat (split; [run|]). run. Qed.

(** C2, as amended, on the two training points and the query point. *)
Lemma C2_witness :
  exists w0 : world,
    New 1 2 [] "faiss" true "cpu" [] = inr w0 /\
    exists w1 out,
      set_nn_idx pts_train w0 = (inr tt, w1) /\
      find_nn_idx pts_query (Some 1%Z) w1 = (inr out, w1) /\
      well_shaped out [] 1 (Z.to_nat 1) /\
      Forall (fun v => (0 <= v < Z.of_nat 2)%Z) (values out).
Proof.
  eexists. split; [run|].
  lazymatch goal with
  | |- context [set_nn_idx _ ?w] =>
      exact (C2_query_shape_and_range (coord := Z) 1%Z 2 [] "cpu" [] w
               pts_train pts_query 2 1
               ltac:(run) ltac:(lia) eq_refl ltac:(lia) eq_refl ltac:(lia))
  end.
Defined.

(** C3 as stated fails: after [set_nn_idx] and a switch to the accelerator,
    a query does not fail with the state error, it returns [-1]. *)
Lemma C3_counterexample_query_after_device_switch :
  exists (w0 w1 w2 : world) out,
    New 1 2 [] "faiss" true "cpu" [] = inr w0 /\
    set_nn_idx pts_train w0 = (inr tt, w1) /\
    to "cuda" w1 = (inr tt, w2) /\
    find_nn_idx pts_query None w2 = (inr out, w2) /\
    values out = [(-1)%Z].
Proof. eexists _, _, _, _. repeat (split; [run|]). run. Qed.

(** C3, as amended, on the same run. *)
Lemma C3_witness :
  exists w0 w1 w2 : world,
    New 1 2 [] "faiss" true "cpu" [] = inr w0 /\
    set_nn_idx pts_train w0 = (inr tt, w1) /\
    to "cuda" w1 = (inr tt, w2) /\
    populated w2 0 /\ train_n (self w2) = Some 2 /\
    exists out,
      find_nn_idx pts_query None w2 = (inr out, w2) /\
      well_shaped out (batch_shape (self w1)) 1 (Z.to_nat 1) /\
      Forall (fun v => v = (-1)%Z) (values out).
Proof.
  eexists _, _, _. split; [run|]. split; [run|].
  lazymatch goal with
  | |- to _ ?w1 = _ /\ _ =>
      split; [run|];
      lazymatch goal with
      | |- populated ?w2 _ /\ _ =>
          destruct (C3_set_device_discards_points_not_train_n (coord := Z)
                      w1 w2 "cuda" 2 pts_query None 1%Z 1 2
                      eq_refl eq_refl ltac:(run)) as (Hp & Ht & Hq)
      end
  end.
  split; [exact Hp|]. split; [exact Ht|].
  exact (Hq (or_introl (conj eq_refl eq_refl)) ltac:(lia) eq_refl eq_refl
            ltac:(lia) ltac:(lia)).
Defined.

(** C4 before and after [set_nn_idx] on two points. *)
Lemma C4_witness :
  exists w0 w1 : world,
    New 1 2 [] "faiss" true "cpu" [] = inr w0 /\
    set_nn_idx pts_train w0 = (inr tt, w1) /\
    find_nn_idx pts_query None w0 = (inl (AssertionError initialized), w0) /\
    (exists a, find_nn_idx pts_query (Some 3%Z) w1 = (inl (AssertionError a), w1) /\
               classify (AssertionError a) = Some RangeError) /\
    (exists a, find_nn_idx pts_query (Some 0%Z) w1 = (inl (AssertionError a), w1) /\
               classify (AssertionError a) = Some RangeError) /\
    find_nn_idx pts_query None w1 = find_nn_idx pts_query (Some (k (self w1))) w1.
Proof.
  eexists _, _. split; [run|]. split; [run|].
  lazymatch goal with
  | |- find_nn_idx _ _ ?w0 = _ /\ (exists a, find_nn_idx _ _ ?w1 = _ /\ _) /\ _ =>
      pose proof (C4_query_state_and_range_checks (coord := Z) w0 pts_query) as (H0 & _);
      pose proof (C4_query_state_and_range_checks (coord := Z) w1 pts_query) as (_ & H1 & H2)
  end.
  split; [exact (proj1 (H0 eq_refl None))|].
  split; [exact (H1 2 3%Z eq_refl (or_intror eq_refl))|].
  split; [exact (H1 2 0%Z eq_refl (or_introl (Z.le_refl 0)))|].
  exact (H2 eq_refl).
Defined.

(** C5.  With the scikit-learn backend (asked for, or chosen because faiss
    is not installed) [set_nn_idx] sets [train_n] and then raises
    [TypeError], and [find_nn_idx] raises [AttributeError]: no query returns
    an index array. *)
Theorem C5_fallback_set_index_and_query_raise :
  exists w0 w1 : world,
    New 1 2 [] "sklearn" true "cpu" [] = inr w0 /\
    New 1 2 [] "faiss" false "cpu" [] = inr w0 /\
    nnlib (self w0) = sklearn /\
    set_nn_idx pts_train w0 = (inl TypeError, w1) /\
    train_n (self w1) = Some 2 /\
    find_nn_idx pts_query None w1 = (inl AttributeError, w1) /\
    find_nn_idx pts_query (Some 1%Z) w1 = (inl AttributeError, w1).
Proof. eexists _, _. repeat (split; [run|]). run. Qed.

(** C6.  With the scikit-learn backend, on five points and [k = 2],
    [build_sequential_nn_idx] raises [UnboundLocalError], which is none of
    the errors of the specification. *)
Theorem C6_fallback_build_raises_unbound_local :
  exists w0 : world,
    New 2 1 [] "sklearn" true "cpu" [] = inr w0 /\
    build_sequential_nn_idx pts_line w0 = (inl UnboundLocalError, w0) /\
    classify UnboundLocalError = None.
Proof. eexists. repeat (split; [run|]). run. Qed.

(** C7 on five points, with [k = 5] and with [k = 2]. *)
Lemma C7_witness :
  exists w5 w2 : world,
    New 5 1 [] "sklearn" true "cpu" [] = inr w5 /\
    New 2 1 [] "faiss" true "cpu" [] = inr w2 /\
    (build_sequential_nn_idx pts_line w5 = (inl (AssertionError k_lt_N), w5) /\
     classify (AssertionError k_lt_N) = Some RangeError) /\
    exists out w',
      build_sequential_nn_idx pts_line w2 = (inr out, w') /\
      well_shaped out (batch_shape (self w2)) (5 - Z.to_nat (k (self w2)))
                  (Z.to_nat (k (self w2))).
Proof.
  eexists _, _. split; [run|]. split; [run|].
  split.
  - lazymatch goal with
    | |- build_sequential_nn_idx _ ?w = _ /\ _ =>
        exact (proj1 (C7_build_range_check_and_shape (coord := Z) pts_line w 5 1
                        eq_refl eq_refl) ltac:(simpl; lia))
    end.
  - lazymatch goal with
    | |- exists out w', build_sequential_nn_idx _ ?w = _ /\ _ =>
        exact (proj2 (C7_build_range_check_and_shape (coord := Z) pts_line w 5 1
                        eq_refl eq_refl) eq_refl eq_refl ltac:(lia) eq_refl)
    end.
Defined.

(** C8 as stated fails in two places: a query with an array of the wrong
    shape, made before any [set_nn_idx], fails with the state error and not
    with a shape error; and a rank-1 array is rejected, although [dim = 1],
    when [batch_shape] is not empty. *)
Lemma C8_counterexample_query_checks_state_first :
  (exists w0 : world,
     New 1 2 [] "faiss" true "cpu" [] = inr w0 /\
     bad_shape (self w0) pts_wrong /\
     find_nn_idx pts_wrong None w0 = (inl (AssertionError initialized), w0) /\
     classify (AssertionError initialized) = Some StateError) /\
  (exists w0 : world,
     New 1 1 [2] "faiss" true "cpu" [] = inr w0 /\
     dim (self w0) = 1%Z /\ shape pts_rank1 = [3] /\
     set_nn_idx pts_rank1 w0 = (inl (AssertionError batch_shape_equal), w0)).
Proof.
  split.
  - eexists. split; [run|]. split; [|split; run].
    right. exists 5. split; [run|]. discriminate.
  - eexists. repeat (split; [run|]). run.
Qed.

(** C8, as amended, on a rank-1 array and on an array of the wrong shape. *)
Lemma C8_witness :
  exists w1 w2 : world,
    New 1 1 [] "faiss" true "cpu" [] = inr w1 /\
    New 1 2 [] "faiss" true "cpu" [] = inr w2 /\
    _expand_and_check_shape pts_rank1 w1 = (inr (Tensor [3; 1] (data pts_rank1)), w1) /\
    (exists a, set_nn_idx pts_wrong w2 = (inl (AssertionError a), w2) /\
               classify (AssertionError a) = Some ShapeError) /\
    (exists a, build_sequential_nn_idx pts_wrong w2 = (inl (AssertionError a), w2) /\
               classify (AssertionError a) = Some ShapeError).
Proof.
  eexists _, _. split; [run|]. split; [run|].
  lazymatch goal with
  | |- _expand_and_check_shape _ ?w1 = _ /\ (exists a, set_nn_idx _ ?w2 = _ /\ _) /\ _ =>
      pose proof (C8_shape_validation_at_entry_points (coord := Z) w1 pts_rank1) as (H1 & _);
      pose proof (C8_shape_validation_at_entry_points (coord := Z) w2 pts_wrong) as (_ & H2)
  end.
  split.
  - destruct (H1 3 eq_refl) as (_ & _ & _ & Hacc). exact (Hacc eq_refl eq_refl).
  - destruct H2 as (Hs & Hb & _); [|split; [exact Hs|exact Hb]].
    right. exists 5. split; [reflexivity|]. discriminate.
Defined.

(** C9.  With [dim = 2], [batch_shape = []], [k = 1] and the faiss backend,
    on the processor or on the accelerator: after [set_nn_idx] on the
    training points [[0,0]] and [[10,10]], [find_nn_idx] on the test point
    [[1,1]] returns the array [[[0]]], with [k] omitted or given. *)
Theorem C9_nearest_of_query_is_first_training_point :
  (exists w0 w1 : world,
     New 1 2 [] "faiss" true "cpu" [] = inr w0 /\
     set_nn_idx pts_train w0 = (inr tt, w1) /\
     find_nn_idx pts_query None w1 = (inr (IdxTensor [1; 1] [[[0%Z]]]), w1) /\
     find_nn_idx pts_query (Some 1%Z) w1 = (inr (IdxTensor [1; 1] [[[0%Z]]]), w1)) /\
  (exists w0 w1 : world,
     New 1 2 [] "faiss" true "cuda" [] = inr w0 /\
     set_nn_idx pts_train w0 = (inr tt, w1) /\
     find_nn_idx pts_query None w1 = (inr (IdxTensor [1; 1] [[[0%Z]]]), w1) /\
     find_nn_idx pts_query (Some 1%Z) w1 = (inr (IdxTensor [1; 1] [[[0%Z]]]), w1)).
Proof. split; eexists _, _; repeat (split; [run|]); run. Qed.

(** C10 after [set_nn_idx] on two points. *)
Lemma C10_witness :
  exists w0 w1 : world,
    New 1 2 [] "faiss" true "cpu" [] = inr w0 /\
    set_nn_idx pts_train w0 = (inr tt, w1) /\
    snd (find_nn_idx pts_query None w1) = w1 /\
    self (snd (build_sequential_nn_idx pts_train w1)) = self w1 /\
    (forall a, a ∈ index (self w1) ->
               heap (snd (build_sequential_nn_idx pts_train w1)) !! a = heap w1 !! a) /\
    fst (find_nn_idx pts_query None (snd (build_sequential_nn_idx pts_train w1)))
    = fst (find_nn_idx pts_query None w1).
Proof.
  eexists _, _. split; [run|]. split; [run|].
  lazymatch goal with
  | |- snd (find_nn_idx _ _ ?w) = _ /\ _ =>
      exact (C10_query_and_build_leave_state (coord := Z) w pts_train pts_query None
               ltac:(repeat constructor))
  end.
Defined.

(** ** The further properties on concrete inputs *)


(** X2 for two batch slots on the accelerator. *)
Lemma X2_witness :
  exists w : world,
    New (coord := Z) 1 1 [2] "faiss" true "cuda" [] = inr w /\
    k (self w) = 1%Z /\ dim (self w) = 1%Z /\ batch_shape (self w) = [2] /\
    train_n (self w) = None /\
    nnlib (self w) = (if String.eqb "faiss" "faiss" && true then faiss else sklearn) /\
    (exists fresh, heap w = [] ++ fresh /\
                   Forall (fun ix => xb ix = [] /\ ix_d ix = 1%Z) fresh) /\
    (nnlib (self w) = faiss ->
     length (index (self w)) = numel [2] /\ NoDup (index (self w)) /\
     Forall (fun a => length (@nil (@IndexFlatL2 Z)) <= a /\
                      exists ix, heap w !! a = Some ix /\
                                 ix_gpu ix = negb (String.eqb "cuda" "cpu"))
            (index (self w)) /\
     res (self w) = if String.eqb "cuda" "cpu" then None else Some tt) /\
    (nnlib (self w) = sklearn -> heap w = []).
Proof.
  eexists. split; [run|].
  lazymatch goal with
  | |- k (self ?w) = _ /\ _ =>
      exact (X2_constructed_state (coord := Z) 1 1 [2] "faiss" true "cuda" [] w
               ltac:(run))
  end.
Defined.

(** X3 with an unknown device. *)
Lemma X3_witness :
  exists w : world,
    New (coord := Z) 1 2 [] "faiss" true "cpu" [] = inr w /\
    to "tpu" w = (inl ValueError, w) /\
    (@inl exn unit ValueError = inl ValueError <->
     "tpu"%string <> "cpu"%string /\ ~ substring "cuda" "tpu") /\
    (@inl exn unit ValueError = inl ValueError -> w = w) /\
    same_config (self w) (self w) /\ train_n (self w) = train_n (self w) /\
    (exists fresh, heap w = heap w ++ fresh) /\
    (nnlib (self w) = sklearn -> w = w).
Proof.
  eexists. split; [run|].
  lazymatch goal with
  | |- to _ ?w = _ /\ _ =>
      split; [run|];
      exact (X3_device_placement_keeps_configuration (coord := Z) "tpu" w w
               (inl ValueError) ltac:(run))
  end.
Defined.

(** X4 on the two training points. *)
Lemma X4_witness :
  exists w : world,
    New (coord := Z) 1 2 [] "faiss" true "cpu" [] = inr w /\
    exists w',
      set_nn_idx pts_train w = (inr tt, w') /\
      train_n (self w') = Some 2 /\
      same_config (self w) (self w') /\
      res (self w') = res (self w) /\ index (self w') = index (self w) /\
      length (heap w') = length (heap w) /\
      (forall i a, index (self w) !! i = Some a ->
         exists ix, heap w' !! a = Some ix /\ xb ix = slot_points pts_train 2 2 i /\
                    ntotal ix = 2) /\
      (forall a, a ∉ index (self w) -> heap w' !! a = heap w !! a).
Proof.
  eexists. split; [run|].
  lazymatch goal with
  | |- context [set_nn_idx _ ?w] =>
      exact (X4_set_index_stores_slot_points (coord := Z) pts_train w 2 2
               eq_refl
               (New_wf (coord := Z) 1 2 [] "faiss" true "cpu" [] w ltac:(run))
               eq_refl eq_refl ltac:(lia) ltac:(lia))
  end.
Defined.

(** X5 on two batch slots. *)
Lemma X5_witness :
  exists w : world,
    New (coord := Z) 1 1 [2] "faiss" true "cpu" [] = inr w /\
    exists w1 out,
      set_nn_idx pts_train2 w = (inr tt, w1) /\
      find_nn_idx pts_query2 None w1 = (inr out, w1) /\
      well_shaped out (batch_shape (self w)) 1 (Z.to_nat 1) /\
      forall i j, i < numel (batch_shape (self w)) -> j < 1 ->
        exists slot row,
          islots out !! i = Some slot /\ slot !! j = Some row /\
          nearest_among (slot_points pts_train2 2 1 i)
                        (nth j (slot_points pts_query2 1 1 i) []) 2 (Z.to_nat 1) row.
Proof.
  eexists. split; [run|].
  lazymatch goal with
  | |- context [set_nn_idx _ ?w] =>
      exact (X5_query_returns_nearest_of_own_slot (coord := Z) pts_train2 pts_query2
               None w 1%Z 2 1 1 eq_refl
               (New_wf (coord := Z) 1 1 [2] "faiss" true "cpu" [] w ltac:(run))
               eq_refl eq_refl eq_refl ltac:(lia) ltac:(lia)
               (or_introl (conj eq_refl eq_refl)) ltac:(lia))
  end.
Defined.

(** X6 with [k = 1] at construction and [k = 2] at the query. *)
Lemma X6_witness :
  exists w w1 : world,
    New (coord := Z) 1 2 [] "faiss" true "cpu" [] = inr w /\
    set_nn_idx pts_train w = (inr tt, w1) /\
    exists out,
      find_nn_idx pts_query (Some 2%Z) w1 = (inr out, w1) /\
      well_shaped out (batch_shape (self w1)) 1 (Z.to_nat 2) /\
      Forall (fun v => (0 <= v < Z.of_nat 2)%Z) (values out).
Proof.
  eexists _, _. split; [run|]. split; [run|].
  lazymatch goal with
  | |- context [find_nn_idx _ _ ?w1] =>
      refine (X6_query_accepts_k_above_configured (coord := Z) pts_query w1 2%Z 2 1 2
               eq_refl _ _ eq_refl ltac:(lia) ltac:(cbn; lia) eq_refl eq_refl
               ltac:(lia) ltac:(lia))
  end.
  - intros _. split; [reflexivity|]. split; [|repeat constructor].
    apply NoDup_singleton.
  - repeat constructor. eexists. split; reflexivity.
Defined.

(** X7: the instance is moved to the accelerator and indexed again. *)
Lemma X7_witness :
  exists w0 w w' : world,
    New (coord := Z) 1 2 [] "faiss" true "cpu" [] = inr w0 /\
    set_nn_idx pts_train w0 = (inr tt, w) /\
    to "cuda" w = (inr tt, w') /\
    populated w' 0 /\
    exists w1 out,
      set_nn_idx pts_train w' = (inr tt, w1) /\
      find_nn_idx pts_query None w1 = (inr out, w1) /\
      forall i j, i < numel (batch_shape (self w)) -> j < 1 ->
        exists slot row,
          islots out !! i = Some slot /\ slot !! j = Some row /\
          nearest_among (slot_points pts_train 2 2 i)
                        (nth j (slot_points pts_query 1 2 i) []) 2 (Z.to_nat 1) row.
Proof.
  eexists _, _, _. split; [run|]. split; [run|].
  lazymatch goal with
  | |- to _ ?w = (_, ?w') /\ _ =>
      split; [run|];
      exact (X7_reindex_after_device_switch (coord := Z) "cuda" pts_train pts_query
               None w w' 1%Z 2 1 2 eq_refl ltac:(run) eq_refl eq_refl eq_refl
               ltac:(lia) ltac:(lia) (or_introl (conj eq_refl eq_refl)) ltac:(lia))
  end.
Defined.

(** X8 on an instance without faiss. *)
Lemma X8_witness :
  exists w : world,
    New (coord := Z) 1 2 [] "faiss" false "cpu" [] = inr w /\
    (forall kq, exists e, find_nn_idx pts_train kq w = (inl e, w)) /\
    (exists e, build_sequential_nn_idx pts_train w = (inl e, w)) /\
    (exists e w', set_nn_idx pts_train w = (inl e, w')) /\
    (forall N d, shape pts_train = batch_shape (self w) ++ [N; d] ->
                 dim (self w) = Z.of_nat d ->
       set_nn_idx pts_train w =
       (inl TypeError,
        MkWorld (heap w)
                (MkNNUtil (k (self w)) (dim (self w)) (batch_shape (self w)) (Some N)
                          (nnlib (self w)) (res (self w)) (index (self w))))).
Proof.
  eexists. split; [run|].
  lazymatch goal with
  | |- (forall kq, exists e, find_nn_idx _ _ ?w = _) /\ _ =>
      exact (X8_fallback_methods_always_raise (coord := Z) w pts_train eq_refl)
  end.
Defined.

(** X9 on an array of no points. *)
Lemma X9_witness :
  exists w : world,
    New (coord := Z) 1 2 [] "faiss" true "cpu" [] = inr w /\
    exists w',
      set_nn_idx pts_none w = (inl RuntimeError, w') /\
      heap w' = heap w /\ train_n (self w') = Some 0 /\
      same_config (self w) (self w') /\
      forall y kq, exists a,
        find_nn_idx y kq w' = (inl (AssertionError a), w') /\
        classify (AssertionError a) = Some RangeError.
Proof.
  eexists. split; [run|].
  lazymatch goal with
  | |- context [set_nn_idx _ ?w] =>
      exact (X9_empty_training_set (coord := Z) pts_none w 2 eq_refl eq_refl
               eq_refl eq_refl)
  end.
Defined.

(** X10 on the two training points and on a 0-dimensional array. *)
Lemma X10_witness :
  exists w : world,
    New (coord := Z) 1 2 [] "faiss" true "cpu" [] = inr w /\
    (exists y, _expand_and_check_shape pts_train w = (inr y, w)) /\
    _expand_and_check_shape pts_scalar w = (inl IndexError, w).
Proof.
  eexists. split; [run|].
  lazymatch goal with
  | |- (exists y, _expand_and_check_shape _ ?w = _) /\ _ =>
      split;
      [apply (proj1 (X10_accepted_shapes (coord := Z) pts_train w));
       exists 2, 2; split; reflexivity
      |exact (proj2 (proj2 (X10_accepted_shapes (coord := Z) pts_scalar w))
                eq_refl eq_refl)]
  end.
Defined.

(** X11 on the five points of a line with [k = 2]. *)
Lemma X11_witness :
  exists w : world,
    New (coord := Z) 2 1 [] "faiss" true "cpu" [] = inr w /\
    exists out w',
      build_sequential_nn_idx pts_line w = (inr out, w') /\
      forall bi, bi < numel (batch_shape (self w)) ->
        exists slot row,
          islots out !! bi = Some slot /\ slot !! 0 = Some row /\
          row ≡ₚ map Z.of_nat (seq 0 (Z.to_nat (k (self w)))).
Proof.
  eexists. split; [run|].
  lazymatch goal with
  | |- context [build_sequential_nn_idx _ ?w] =>
      exact (X11_first_sequential_row_is_the_first_k_points (coord := Z) pts_line w 5 1
               eq_refl eq_refl eq_refl eq_refl ltac:(lia) eq_refl)
  end.
Defined.

(** X12 on the two training points. *)
Lemma X12_witness :
  exists w w' : world,
    New (coord := Z) 1 2 [] "faiss" true "cpu" [] = inr w /\
    set_nn_idx pts_train w = (inr tt, w') /\
    same_config (self w) (self w') /\
    res (self w') = res (self w) /\ index (self w') = index (self w) /\
    length (heap w') = length (heap w) /\
    (forall a, a ∉ index (self w) -> heap w' !! a = heap w !! a) /\
    (forall e, _expand_and_check_shape pts_train w = (inl e, w) ->
               @inr exn unit tt = inl e /\ w' = w) /\
    (forall y, _expand_and_check_shape pts_train w = (inr y, w) ->
       exists N, neg2 (shape y) = Some N /\ train_n (self w') = Some N).
Proof.
  eexists _, _. split; [run|].
  lazymatch goal with
  | |- set_nn_idx _ ?w = (_, ?w') /\ _ =>
      split; [run|];
      exact (X12_set_index_frame (coord := Z) pts_train w w' (inr tt) ltac:(run))
  end.
Defined.

(** X13 after a device switch and an indexing. *)
Lemma X13_witness :
  exists w0 : world,
    New (coord := Z) 1 2 [] "faiss" true "cpu" [] = inr w0 /\
    let w := snd (set_nn_idx pts_train (snd (to "cuda" w0))) in
    (0 < k (self w))%Z /\ k (self w) = 1%Z /\ dim (self w) = 2%Z /\
    batch_shape (self w) = [] /\
    nnlib (self w) = (if String.eqb "faiss" "faiss" && true then faiss else sklearn) /\
    wf_world w.
Proof.
  eexists. split; [run|].
  lazymatch goal with
  | |- context [to _ ?w0] =>
      exact (X13_configuration_is_fixed_at_construction (coord := Z) 1 2 []
               "faiss" true "cpu" [] w0 _ ltac:(run)
               (reach_set_nn_idx w0 pts_train _
                  (reach_to w0 "cuda" _ (reach_here w0))))
  end.
Defined.

(** X14 with [k = 3] and two training points. *)
Lemma X14_witness :
  exists w : world,
    New (coord := Z) 3 2 [] "faiss" true "cpu" [] = inr w /\
    exists w1,
      set_nn_idx pts_train w = (inr tt, w1) /\
      (forall y, find_nn_idx y None w1 = (inl (AssertionError k_le_train_n), w1)) /\
      forall kk, (0 < kk <= Z.of_nat 2)%Z ->
        exists out, find_nn_idx pts_query (Some kk) w1 = (inr out, w1) /\
                    well_shaped out (batch_shape (self w)) 1 (Z.to_nat kk).
Proof.
  eexists. split; [run|].
  lazymatch goal with
  | |- context [set_nn_idx _ ?w] =>
      exact (X14_fewer_training_points_than_k (coord := Z) pts_train pts_query w 2 1 2
               eq_refl
               (New_wf (coord := Z) 3 2 [] "faiss" true "cpu" [] w ltac:(run))
               eq_refl eq_refl eq_refl ltac:(lia) ltac:(lia) ltac:(lia) eq_refl)
  end.
Defined.

(** X15 on a new instance. *)
Lemma X15_witness :
  exists w : world,
    New (coord := Z) 2 1 [] "faiss" true "cpu" [] = inr w /\
    train_n (self (snd (build_sequential_nn_idx pts_line w))) = None /\
    forall y kq,
      find_nn_idx y kq (snd (build_sequential_nn_idx pts_line w))
      = (inl (AssertionError initialized), snd (build_sequential_nn_idx pts_line w)).
Proof.
  eexists. split; [run|].
  lazymatch goal with
  | |- train_n (self (snd (build_sequential_nn_idx _ ?w))) = None /\ _ =>
      exact (X15_build_does_not_index (coord := Z) pts_line w _ _ eq_refl
               (surjective_pairing _))
  end.
Defined.

(** X16 on the five points of a line, for the point 3. *)
Lemma X16_witness :
  exists w : world,
    New (coord := Z) 2 1 [] "faiss" true "cpu" [] = inr w /\
    exists out wb w1 outq slot row,
      build_sequential_nn_idx pts_line w = (inr out, wb) /\
      islots out = [slot] /\ slot !! (3 - Z.to_nat (k (self w))) = Some row /\
      set_nn_idx (Tensor [3; 1] (take (3 * 1) (data pts_line))) w = (inr tt, w1) /\
      find_nn_idx (Tensor [1; 1] (take 1 (drop (3 * 1) (data pts_line)))) None w1
        = (inr outq, w1) /\
      islots outq = [[row]].
Proof.
  eexists. split; [run|].
  lazymatch goal with
  | |- context [build_sequential_nn_idx _ ?w] =>
      exact (X16_sequential_row_is_query_on_prefix (coord := Z) pts_line w 5 1 3
               eq_refl
               (New_wf (coord := Z) 2 1 [] "faiss" true "cpu" [] w ltac:(run))
               eq_refl eq_refl eq_refl ltac:(lia) eq_refl
               ltac:(repeat constructor) ltac:(cbn; lia))
  end.
Defined.
